(** * ImageResizer: the resize engine of [image_resizer.py]

    A shallow embedding of [resize_image] and of the Python, Pillow and
    NumPy operations it calls, followed by the properties of the engine.

    - Python values are modelled as the function receives them from the
      form: the image is [None], a Pillow image or an array; the scale
      factor is [None], an [int] or a [float] (the slider); the target
      width and height are [None] or an [int] ([gr.Number(precision=0)]).
    - [float] is IEEE 754 binary64, computed exactly with the standard
      library's [SpecFloat] (53 bits of precision, round to nearest even).
    - An exception is a value; code that may raise lives in the [result]
      monad and [try ... except Exception] is a match on it.
    - Pillow and NumPy are not part of the repository: their calls are the
      fields of a [Library] record over which every general theorem is
      quantified.  [Ref.lib] is a small executable instance used to run the
      function on concrete inputs. *)

From Stdlib Require Import ZArith QArith Qround String Ascii List Lia Bool.
From Stdlib Require Import Strings.Byte.
From Stdlib Require Import Floats.SpecFloat.
From Stdlib Require Import DecimalString DecimalZ.
Import ListNotations.

Open Scope string_scope.
Open Scope Z_scope.

(** ** Python: exceptions, numbers, truthiness *)

Module Py.

(** An instance of [Exception]: its class name and [str(e)]. *)
Record exception := Exception { exc_type : string; exc_str : string }.

Inductive result (A : Type) : Type :=
| Return (a : A)
| Raise (e : exception).
Arguments Return {A} a.
Arguments Raise {A} e.

Definition bind {A B} (c : result A) (k : A -> result B) : result B :=
  match c with
  | Return a => k a
  | Raise e => Raise e
  end.

(** [float]: binary64. *)
Definition prec : Z := 53.
Definition emax : Z := 1024.
Definition float := spec_float.

Inductive number :=
| Int (z : Z)
| Float (f : float).

(** [float(z)] as done by [int * float]: round to nearest even,
    [OverflowError] when the rounded value does not fit. *)
Definition float_of_int (z : Z) : result float :=
  match binary_normalize prec emax z 0 false with
  | S754_infinity _ =>
      Raise (Exception "OverflowError" "int too large to convert to float")
  | f => Return f
  end.

(** [a * b]. *)
Definition mul (a b : number) : result number :=
  match a, b with
  | Int x, Int y => Return (Int (x * y))
  | Int x, Float g =>
      match float_of_int x with
      | Return f => Return (Float (SFmul prec emax f g))
      | Raise e => Raise e
      end
  | Float f, Int y =>
      match float_of_int y with
      | Return g => Return (Float (SFmul prec emax f g))
      | Raise e => Raise e
      end
  | Float f, Float g => Return (Float (SFmul prec emax f g))
  end.

(** [int(x)]: truncation toward zero. *)
Definition int (x : number) : result Z :=
  match x with
  | Int z => Return z
  | Float (S754_zero _) => Return 0
  | Float (S754_infinity _) =>
      Raise (Exception "OverflowError" "cannot convert float infinity to integer")
  | Float S754_nan =>
      Raise (Exception "ValueError" "cannot convert float NaN to integer")
  | Float (S754_finite s m e) =>
      let v := if 0 <=? e then Zpos m * 2 ^ e else Zpos m / 2 ^ (- e) in
      Return (if s then - v else v)
  end.

(** [x <= 0] and [0 < x] on numbers; both are [False] on NaN. *)
Definition le0 (x : number) : bool :=
  match x with
  | Int z => z <=? 0
  | Float f => SFleb f (S754_zero false)
  end.

Definition positive (x : number) : bool :=
  match x with
  | Int z => 0 <? z
  | Float f => SFltb (S754_zero false) f
  end.

(** The real value of a number; [None] for infinities and NaN. *)
Definition to_Q (x : number) : option Q :=
  match x with
  | Int z => Some (inject_Z z)
  | Float (S754_zero _) => Some 0%Q
  | Float (S754_finite s m e) =>
      let q := match e with
               | Zneg p => Qmake (Zpos m) (2 ^ p)%positive
               | _ => inject_Z (Zpos m * 2 ^ e)
               end in
      Some (if s then Qopp q else q)
  | Float _ => None
  end.

(** [str(z)] for an [int]. *)
Definition str (z : Z) : string := NilZero.string_of_int (Z.to_int z).

End Py.

Import Py.

Declare Scope py_scope.
Notation "x <- c ;; k" := (Py.bind c (fun x => k))
  (at level 61, c at next level, right associativity) : py_scope.
Open Scope py_scope.

(** ** [io.BytesIO]: a byte buffer with a position *)

Module io.

Record BytesIO := { getvalue : list byte; tell : nat }.

(** [io.BytesIO()] *)
Definition new : BytesIO := {| getvalue := []; tell := 0 |}.

(** [fp.write(b)]: the bytes replace or extend the contents from the
    position on (zero-filled when the position is past the end), and the
    position moves past them. *)
Definition write (fp : BytesIO) (b : list byte) : BytesIO :=
  let pos := tell fp in
  let old := getvalue fp in
  {| getvalue := (firstn pos old ++ repeat x00 (pos - length old)
                  ++ b ++ skipn (pos + length b) old)%list;
     tell := (pos + length b)%nat |}.

(** [fp.seek(pos)] *)
Definition seek (fp : BytesIO) (pos : nat) : BytesIO :=
  {| getvalue := getvalue fp; tell := pos |}.

(** [fp.read()]: the bytes from the position to the end. *)
Definition read (fp : BytesIO) : list byte := skipn (tell fp) (getvalue fp).

End io.

(** ** Pillow images and NumPy arrays *)

Module PIL.

(** [mode], [size] = (width, height), and the raster: the pixels in row
    order, each one the list of its band samples. *)
Record Image := { mode : string; size : Z * Z; pixels : list (list Z) }.

Inductive Resampling := NEAREST | BOX | BILINEAR | HAMMING | BICUBIC | LANCZOS.

(** Every pixel has four bands / an alpha sample of 255. *)
Definition four_channel (img : Image) : Prop :=
  Forall (fun p => length p = 4%nat) (pixels img).

Definition fully_opaque (img : Image) : Prop :=
  Forall (fun p => nth 3 p 0 = 255) (pixels img).

End PIL.

Module np.

Record ndarray := { shape : list Z; data : list Z }.

End np.

(** The calls into Pillow and NumPy.  [encode img format] is the byte
    string that [img.save(fp, format=format)] writes to [fp]; [decode] is
    the image that [Image.open(fp)] builds from the bytes it reads. *)
Record Library := {
  Image_fromarray : np.ndarray -> result PIL.Image;
  Image_convert : PIL.Image -> string -> result PIL.Image;
  Image_resize : PIL.Image -> Z * Z -> PIL.Resampling -> result PIL.Image;
  encode : PIL.Image -> string -> result (list byte);
  decode : list byte -> result PIL.Image;
  np_array : PIL.Image -> result np.ndarray;
  has_transparency_data : PIL.Image -> bool
}.

Definition Image_save (lib : Library) (img : PIL.Image) (fp : io.BytesIO)
    (format : string) : result io.BytesIO :=
  b <- encode lib img format ;;
  Return (io.write fp b).

Definition Image_open (lib : Library) (fp : io.BytesIO) : result PIL.Image :=
  decode lib (io.read fp).

(** ** [resize_image] *)

(** What the form hands over as [input_image] when it is not [None]:
    [isinstance(input_image, Image.Image)] holds of the first. *)
Inductive image_input :=
| PILImage (img : PIL.Image)
| Array (a : np.ndarray).

(** The returned pair [(output_image, info_message)]. *)
Definition output : Type := option np.ndarray * string.

(** A block either falls through with a value or executes [return]. *)
Inductive flow (A : Type) : Type :=
| Continue (a : A)
| ReturnEarly (r : output).
Arguments Continue {A} a.
Arguments ReturnEarly {A} r.

Definition LF : string := String "010"%char EmptyString.

(** The literals of the source, with the wording the specification gives
    them in English. *)
Definition scale_method : string := "比例調整".            (* Scale *)
Definition custom_method : string := "自訂尺寸".           (* Explicit *)
Definition msg_upload : string := "請上傳圖片".            (* please upload an image *)
Definition msg_scale : string := "請輸入有效的縮放比例".   (* please enter a valid scale factor *)
Definition msg_size : string := "請輸入有效的寬度和高度".  (* please enter valid width and height *)
Definition msg_error : string := "處理圖片時發生錯誤：".   (* Error processing image: *)
Definition label_original_size : string := "原始尺寸: ".   (* Original size: *)
Definition label_resized_to : string := "調整後尺寸: ".    (* Resized to: *)
Definition label_saved_as_png : string := "已保存為 PNG 格式". (* Saved as PNG format *)

(** Line 56: the f-string. *)
Definition info_message (original_width original_height new_width new_height : Z)
  : string :=
  ("原始尺寸: " ++ str original_width ++ "x" ++ str original_height ++ LF
   ++ "調整後尺寸: " ++ str new_width ++ "x" ++ str new_height ++ LF
   ++ "已保存為 PNG 格式")%string.

Section Engine.

Variable lib : Library.

(** Lines 19-23. *)
Definition load (input_image : image_input) : result PIL.Image :=
  match input_image with
  | PILImage img => Return img
  | Array a => Image_fromarray lib a
  end.

(** Lines 26-27. *)
Definition normalize (img : PIL.Image) : result PIL.Image :=
  if negb (String.eqb (PIL.mode img) "RGBA")
  then Image_convert lib img "RGBA"
  else Return img.

(** Lines 32-41.  In the [else] branch [not None] is true, so the
    comparisons with 0 are only reached on two integers. *)
Definition new_size (original_width original_height : Z)
    (resize_method : string) (scale_factor : option number)
    (target_width target_height : option Z) : result (flow (Z * Z)) :=
  if String.eqb resize_method "比例調整" then
    match scale_factor with
    | None => Return (ReturnEarly (None, "請輸入有效的縮放比例"))
    | Some scale_factor =>
        if le0 scale_factor then
          Return (ReturnEarly (None, "請輸入有效的縮放比例"))
        else
          pw <- mul (Int original_width) scale_factor ;;
          new_width <- int pw ;;
          ph <- mul (Int original_height) scale_factor ;;
          new_height <- int ph ;;
          Return (Continue (new_width, new_height))
    end
  else
    match target_width, target_height with
    | Some target_width, Some target_height =>
        if (target_width =? 0) || (target_height =? 0)
           || (target_width <=? 0) || (target_height <=? 0)
        then Return (ReturnEarly (None, "請輸入有效的寬度和高度"))
        else Return (Continue (target_width, target_height))
    | _, _ => Return (ReturnEarly (None, "請輸入有效的寬度和高度"))
    end.

(** Lines 44-53. *)
Definition render (img : PIL.Image) (new_width new_height : Z)
  : result np.ndarray :=
  resized_img <- Image_resize lib img (new_width, new_height) PIL.LANCZOS ;;
  let output_buffer := io.new in
  output_buffer <- Image_save lib resized_img output_buffer "PNG" ;;
  let output_buffer := io.seek output_buffer 0 in
  output_img <- Image_open lib output_buffer ;;
  np_array lib output_img.

(** Lines 18-57: the body of the [try]. *)
Definition try_body (input_image : image_input) (resize_method : string)
    (scale_factor : option number) (target_width target_height : option Z)
  : result output :=
  img <- load input_image ;;
  img <- normalize img ;;
  let '(original_width, original_height) := PIL.size img in
  sz <- new_size original_width original_height resize_method scale_factor
          target_width target_height ;;
  match sz with
  | ReturnEarly r => Return r
  | Continue (new_width, new_height) =>
      output_image <- render img new_width new_height ;;
      Return (Some output_image,
              info_message original_width original_height new_width new_height)
  end.

(** Lines 12-60. *)
Definition resize_image (input_image : option image_input)
    (resize_method : string) (scale_factor : option number)
    (target_width target_height : option Z) (quality : number)
  : result output :=
  match input_image with
  | None => Return (None, "請上傳圖片")
  | Some input_image =>
      match try_body input_image resize_method scale_factor
              target_width target_height with
      | Return r => Return r
      | Raise e => Return (None, ("處理圖片時發生錯誤：" ++ exc_str e)%string)
      end
  end.

End Engine.

(** ** What the engine relies on from the library

    Partial-correctness facts about the calls, as Pillow and NumPy
    document them: they say what a call returns when it returns, never that
    it does.  [Image.resize] returns an image of the requested size, which
    is the size of the source (then a plain copy) or at least 1x1;
    [convert] to RGBA yields four bands and, for a source without
    transparency data ([Image.has_transparency_data]), an alpha band of
    255; a PNG written by [save] and read back by [open] has the same
    size; [np.array] yields height then width as the leading axes. *)
Record Contract (lib : Library) : Prop := {
  convert_RGBA : forall img img',
    Image_convert lib img "RGBA" = Return img' ->
    PIL.mode img' = "RGBA" /\ PIL.size img' = PIL.size img /\
    PIL.four_channel img' /\
    (has_transparency_data lib img = false -> PIL.fully_opaque img');
  resize_size : forall img sz f img',
    Image_resize lib img sz f = Return img' ->
    PIL.size img' = sz /\ PIL.mode img' = PIL.mode img /\
    (sz = PIL.size img \/ (1 <= fst sz /\ 1 <= snd sz));
  png_round_trip : forall img b img',
    encode lib img "PNG" = Return b ->
    decode lib b = Return img' ->
    PIL.size img' = PIL.size img;
  array_shape : forall img a,
    np_array lib img = Return a ->
    firstn 2 (np.shape a) = [snd (PIL.size img); fst (PIL.size img)]
}.

(** ** A reference instance of the library

    Executable stand-ins for the calls, faithful in mode, size and band
    layout for the modes L, LA, RGB and RGBA.  The resampling filter is
    replaced by nearest-neighbour sampling and the PNG stream by its
    signature, the big-endian width and height, the colour type and the raw
    samples: pixel values after resampling, compression and checksums are
    outside the model.  As in Pillow, resizing to the size the image
    already has is a plain copy, and any other size below 1x1 is refused. *)
Module Ref.

Definition bands (mode : string) : option nat :=
  if String.eqb mode "L" then Some 1%nat
  else if String.eqb mode "LA" then Some 2%nat
  else if String.eqb mode "RGB" then Some 3%nat
  else if String.eqb mode "RGBA" then Some 4%nat
  else None.

Fixpoint chunks_aux {A} (fuel n : nat) (l : list A) : list (list A) :=
  match fuel, l with
  | O, _ | _, [] => []
  | S fuel, _ => firstn n l :: chunks_aux fuel n (skipn n l)
  end.

Definition chunks {A} (n : nat) (l : list A) : list (list A) :=
  chunks_aux (length l) n l.

(** [Image.fromarray]: (h, w) is L, (h, w, c) is LA, RGB or RGBA. *)
Definition fromarray (a : np.ndarray) : result PIL.Image :=
  let unsupported :=
    Raise (Exception "TypeError" "Cannot handle this data type") in
  match np.shape a with
  | [h; w] =>
      Return {| PIL.mode := "L"; PIL.size := (w, h);
                PIL.pixels := chunks 1 (np.data a) |}
  | [h; w; c] =>
      if c =? 2 then
        Return {| PIL.mode := "LA"; PIL.size := (w, h);
                  PIL.pixels := chunks 2 (np.data a) |}
      else if c =? 3 then
        Return {| PIL.mode := "RGB"; PIL.size := (w, h);
                  PIL.pixels := chunks 3 (np.data a) |}
      else if c =? 4 then
        Return {| PIL.mode := "RGBA"; PIL.size := (w, h);
                  PIL.pixels := chunks 4 (np.data a) |}
      else unsupported
  | _ => unsupported
  end.

(** One pixel to RGBA: grey is replicated, a missing alpha is 255, an
    existing alpha is kept. *)
Definition rgba_of (mode : string) (p : list Z) : list Z :=
  let s i := nth i p 0 in
  if String.eqb mode "L" then [s 0%nat; s 0%nat; s 0%nat; 255]
  else if String.eqb mode "LA" then [s 0%nat; s 0%nat; s 0%nat; s 1%nat]
  else if String.eqb mode "RGB" then [s 0%nat; s 1%nat; s 2%nat; 255]
  else [s 0%nat; s 1%nat; s 2%nat; s 3%nat].

Definition convert (img : PIL.Image) (mode : string) : result PIL.Image :=
  match bands (PIL.mode img) with
  | Some _ =>
      if String.eqb mode "RGBA" then
        Return {| PIL.mode := "RGBA"; PIL.size := PIL.size img;
                  PIL.pixels := map (rgba_of (PIL.mode img)) (PIL.pixels img) |}
      else Raise (Exception "ValueError" "conversion not supported")
  | None => Raise (Exception "ValueError" "conversion not supported")
  end.

Definition resize (img : PIL.Image) (size : Z * Z) (resample : PIL.Resampling)
  : result PIL.Image :=
  let '(w, h) := size in
  let '(W, H) := PIL.size img in
  if (w =? W) && (h =? H) then
    Return img
  else if (w <? 1) || (h <? 1) then
    Raise (Exception "ValueError" "height and width must be > 0")
  else
    Return {| PIL.mode := PIL.mode img; PIL.size := (w, h);
              PIL.pixels :=
                map (fun i =>
                       let x := i mod w in
                       let y := i / w in
                       nth (Z.to_nat ((y * H / h) * W + x * W / w))
                           (PIL.pixels img) [])
                    (map Z.of_nat (seq 0 (Z.to_nat (w * h)))) |}.

Definition byte_of_Z (z : Z) : byte :=
  match Byte.of_N (Z.to_N (z mod 256)) with
  | Some b => b
  | None => x00
  end.

Definition Z_of_byte (b : byte) : Z := Z.of_N (Byte.to_N b).

Definition be32 (z : Z) : list byte :=
  [byte_of_Z (z / 16777216); byte_of_Z (z / 65536); byte_of_Z (z / 256);
   byte_of_Z z].

Definition of_be32 (a b c d : byte) : Z :=
  ((Z_of_byte a * 256 + Z_of_byte b) * 256 + Z_of_byte c) * 256 + Z_of_byte d.

Definition signature : list byte := [x89; x50; x4e; x47; x0d; x0a; x1a; x0a].

(** PNG colour types. *)
Definition colour_type (mode : string) : option byte :=
  if String.eqb mode "L" then Some x00
  else if String.eqb mode "LA" then Some x04
  else if String.eqb mode "RGB" then Some x02
  else if String.eqb mode "RGBA" then Some x06
  else None.

Definition mode_of_colour_type (b : byte) : option (string * nat) :=
  match b with
  | x00 => Some ("L", 1%nat)
  | x04 => Some ("LA", 2%nat)
  | x02 => Some ("RGB", 3%nat)
  | x06 => Some ("RGBA", 4%nat)
  | _ => None
  end.

Definition in_range (z : Z) : bool := (1 <=? z) && (z <? 2147483648).

Definition save_bytes (img : PIL.Image) (format : string) : result (list byte) :=
  if negb (String.eqb format "PNG") then
    Raise (Exception "KeyError" format)
  else
    let '(w, h) := PIL.size img in
    match colour_type (PIL.mode img) with
    | Some c =>
        if in_range w && in_range h then
          Return (signature ++ be32 w ++ be32 h ++ [c]
                  ++ map byte_of_Z (concat (PIL.pixels img)))%list
        else Raise (Exception "ValueError" "cannot write image of this size")
    | None =>
        Raise (Exception "OSError" ("cannot write mode " ++ PIL.mode img ++ " as PNG"))
    end.

Definition open_bytes (b : list byte) : result PIL.Image :=
  let bad := Raise (Exception "UnidentifiedImageError" "cannot identify image file") in
  match b with
  | s0 :: s1 :: s2 :: s3 :: s4 :: s5 :: s6 :: s7
    :: w0 :: w1 :: w2 :: w3 :: h0 :: h1 :: h2 :: h3 :: c :: raster =>
      if list_eq_dec Byte.byte_eq_dec [s0; s1; s2; s3; s4; s5; s6; s7] signature
      then
        match mode_of_colour_type c with
        | Some (m, n) =>
            Return {| PIL.mode := m;
                      PIL.size := (of_be32 w0 w1 w2 w3, of_be32 h0 h1 h2 h3);
                      PIL.pixels := chunks n (map Z_of_byte raster) |}
        | None => bad
        end
      else bad
  | _ => bad
  end.

(** [np.array(img)]: shape (h, w) for L, (h, w, bands) otherwise. *)
Definition array (img : PIL.Image) : result np.ndarray :=
  let '(w, h) := PIL.size img in
  match bands (PIL.mode img) with
  | Some 1%nat =>
      Return {| np.shape := [h; w]; np.data := concat (PIL.pixels img) |}
  | Some n =>
      Return {| np.shape := [h; w; Z.of_nat n];
                np.data := concat (PIL.pixels img) |}
  | None => Raise (Exception "TypeError" "unsupported image mode")
  end.

Definition transparency (img : PIL.Image) : bool :=
  String.eqb (PIL.mode img) "LA" || String.eqb (PIL.mode img) "RGBA".

Definition lib : Library :=
  {| Image_fromarray := fromarray;
     Image_convert := convert;
     Image_resize := resize;
     encode := save_bytes;
     decode := open_bytes;
     np_array := array;
     has_transparency_data := transparency |}.

End Ref.

(** ** Vocabulary of the statements *)

(** A number that is not negative (NaN and the infinities are let
    through: [int] rejects them on its own). *)
Definition nonneg (x : number) : Prop :=
  match x with
  | Int z => 0 <= z
  | Float (S754_finite s _ _) => s = false
  | Float _ => True
  end.

(** A target dimension that the [else] branch accepts: present and
    strictly positive. *)
Definition valid_target (t : option Z) : bool :=
  match t with
  | Some z => 0 <? z
  | None => false
  end.

(** [raised lib input m sf tw th e]: some statement of the [try] body
    raises [e], all the statements before it having completed. *)
Inductive raised (lib : Library) (input : image_input) (m : string)
    (sf : option number) (tw th : option Z) (e : exception) : Prop :=
| raised_loading :
    load lib input = Raise e -> raised lib input m sf tw th e
| raised_normalization img0 :
    load lib input = Return img0 ->
    normalize lib img0 = Raise e -> raised lib input m sf tw th e
| raised_dimensions img0 img :
    load lib input = Return img0 ->
    normalize lib img0 = Return img ->
    new_size (fst (PIL.size img)) (snd (PIL.size img)) m sf tw th = Raise e ->
    raised lib input m sf tw th e
| raised_resampling img0 img nw nh :
    load lib input = Return img0 ->
    normalize lib img0 = Return img ->
    new_size (fst (PIL.size img)) (snd (PIL.size img)) m sf tw th
      = Return (Continue (nw, nh)) ->
    Image_resize lib img (nw, nh) PIL.LANCZOS = Raise e ->
    raised lib input m sf tw th e
| raised_encoding img0 img nw nh resized_img :
    load lib input = Return img0 ->
    normalize lib img0 = Return img ->
    new_size (fst (PIL.size img)) (snd (PIL.size img)) m sf tw th
      = Return (Continue (nw, nh)) ->
    Image_resize lib img (nw, nh) PIL.LANCZOS = Return resized_img ->
    encode lib resized_img "PNG" = Raise e ->
    raised lib input m sf tw th e
| raised_decoding img0 img nw nh resized_img b :
    load lib input = Return img0 ->
    normalize lib img0 = Return img ->
    new_size (fst (PIL.size img)) (snd (PIL.size img)) m sf tw th
      = Return (Continue (nw, nh)) ->
    Image_resize lib img (nw, nh) PIL.LANCZOS = Return resized_img ->
    encode lib resized_img "PNG" = Return b ->
    decode lib b = Raise e ->
    raised lib input m sf tw th e
| raised_array img0 img nw nh resized_img b output_img :
    load lib input = Return img0 ->
    normalize lib img0 = Return img ->
    new_size (fst (PIL.size img)) (snd (PIL.size img)) m sf tw th
      = Return (Continue (nw, nh)) ->
    Image_resize lib img (nw, nh) PIL.LANCZOS = Return resized_img ->
    encode lib resized_img "PNG" = Return b ->
    decode lib b = Return output_img ->
    np_array lib output_img = Raise e ->
    raised lib input m sf tw th e.

(** ** Sample inputs *)

(** The float a decimal literal [n/d] denotes: the correctly rounded
    quotient. *)
Definition literal (n d : Z) : number :=
  Float (SFdiv prec emax (binary_normalize prec emax n 0 false)
                         (binary_normalize prec emax d 0 false)).

Definition inf : number := Float (S754_infinity false).

(** A [w] x [h] image of one colour. *)
Definition solid (mode : string) (w h : Z) (pixel : list Z) : PIL.Image :=
  {| PIL.mode := mode; PIL.size := (w, h);
     PIL.pixels := repeat pixel (Z.to_nat (w * h)) |}.

(** ** [is_valid_image] (lines 7-10)

    A file name is a Python [str]: a list of code points.  [str.lower]
    maps the ASCII capitals to their small letters, leaves the other ASCII
    characters alone and sends every other code point through Unicode's
    full lower-case mapping, which may yield several code points and, for
    the capital sigma, looks at the neighbours; that mapping is the
    parameter [unicode_lower s i c] (the string, the position, the code
    point). *)
Module Str.

Definition str : Type := list Z.

(** The code points of an ASCII literal. *)
Definition of_ascii (s : string) : str :=
  map (fun a => Z.of_N (N_of_ascii a)) (list_ascii_of_string s).

Definition is_ascii (c : Z) : bool := (0 <=? c) && (c <? 128).

Definition ascii_lower (c : Z) : Z :=
  if (65 <=? c) && (c <=? 90) then c + 32 else c.

Section Lower.

Variable unicode_lower : str -> nat -> Z -> str.

Definition lower_at (s : str) (i : nat) (c : Z) : str :=
  if is_ascii c then [ascii_lower c] else unicode_lower s i c.

Fixpoint lower_from (s : str) (i : nat) (rest : str) : str :=
  match rest with
  | [] => []
  | c :: rest => (lower_at s i c ++ lower_from s (S i) rest)%list
  end.

(** [s.lower()] *)
Definition lower (s : str) : str := lower_from s 0 s.

End Lower.

Fixpoint eqb (a b : str) : bool :=
  match a, b with
  | [], [] => true
  | x :: a, y :: b => (x =? y) && eqb a b
  | _, _ => false
  end.

(** [s.endswith(suffix)] *)
Definition endswith (s suffix : str) : bool :=
  (length suffix <=? length s)%nat
  && eqb (skipn (length s - length suffix) s) suffix.

End Str.

(** The uploaded file, of which only [file.name] is read. *)
Record File := { name : Str.str }.

Definition valid_formats : list Str.str :=
  map Str.of_ascii [".jpg"; ".jpeg"; ".png"; ".bmp"; ".webp"].

Definition is_valid_image (unicode_lower : Str.str -> nat -> Z -> Str.str)
    (file : File) : bool :=
  existsb (fun fmt => Str.endswith (Str.lower unicode_lower (name file)) fmt)
          valid_formats.

(** ** The form ([create_interface], lines 63-130) *)

Module gr.

(** [gr.update(visible=...)] *)
Record update := { visible : bool }.

Record Radio := { choices : list string; Radio_value : string }.

Record Slider :=
  { minimum : number; maximum : number; Slider_value : number; step : number }.

End gr.

(** Lines 71-75, 78-84 and 90-96. *)
Definition resize_method_radio : gr.Radio :=
  {| gr.choices := ["比例調整"; "自訂尺寸"]; gr.Radio_value := "比例調整" |}.

Definition scale_factor_slider : gr.Slider :=
  {| gr.minimum := literal 1 10; gr.maximum := literal 5 1;
     gr.Slider_value := literal 1 1; gr.step := literal 1 10 |}.

Definition quality_slider : gr.Slider :=
  {| gr.minimum := Int 1; gr.maximum := Int 100;
     gr.Slider_value := Int 90; gr.step := Int 1 |}.

(** Lines 106-110: the updates of [scale_group] and of
    [custom_size_group], in the order of [outputs]. *)
Definition update_visibility (choice : string) : gr.update * gr.update :=
  if String.eqb choice "比例調整" then
    ({| gr.visible := true |}, {| gr.visible := false |})
  else
    ({| gr.visible := false |}, {| gr.visible := true |}).

(** The values of the six inputs of [submit_btn.click] (lines 119-130);
    an empty [gr.Image] or [gr.Number] is [None]. *)
Record form := {
  form_input_image : option image_input;
  form_resize_method : string;
  form_scale_factor : number;
  form_target_width : option Z;
  form_target_height : option Z;
  form_quality : number
}.

(** The form as it is first shown. *)
Definition initial_form : form :=
  {| form_input_image := None;
     form_resize_method := gr.Radio_value resize_method_radio;
     form_scale_factor := gr.Slider_value scale_factor_slider;
     form_target_width := None;
     form_target_height := None;
     form_quality := gr.Slider_value quality_slider |}.

(** A click on the submit button. *)
Definition submit (lib : Library) (f : form) : result output :=
  resize_image lib (form_input_image f) (form_resize_method f)
    (Some (form_scale_factor f)) (form_target_width f) (form_target_height f)
    (form_quality f).

(** What [scale_factor <= 0] accepts to return the scale message: no
    factor, or one whose value is zero or negative. *)
Definition not_positive (sf : option number) : Prop :=
  match sf with
  | None => True
  | Some s =>
      s = Float (S754_infinity true)
      \/ exists q, to_Q s = Some q /\ (q <= 0)%Q
  end.

(** The user picks an image; the other inputs stay as they are. *)
Definition upload (f : form) (input : image_input) : form :=
  {| form_input_image := Some input;
     form_resize_method := form_resize_method f;
     form_scale_factor := form_scale_factor f;
     form_target_width := form_target_width f;
     form_target_height := form_target_height f;
     form_quality := form_quality f |}.

(** The number of binary digits of a mantissa. *)
Definition D (p : BinNums.positive) : Z := Zpos (digits2_pos p).

(** Whether a character occurs in a string. *)
Fixpoint occurs (c : ascii) (s : string) : bool :=
  match s with
  | EmptyString => false
  | String a s => Ascii.eqb c a || occurs c s
  end.

(** * Properties *)

(** ** Python arithmetic *)

Lemma binary_round_aux_sign sx mx ex lx :
  match binary_round_aux prec emax sx mx ex lx with
  | S754_finite s _ _ => s = sx
  | _ => True
  end.
Proof.
  unfold binary_round_aux.
  destruct (shr_fexp prec emax mx ex lx) as [mrs' e'].
  destruct (shr_fexp prec emax _ e' loc_Exact) as [mrs'' e''].
  destruct (shr_m mrs''); trivial.
  destruct (e'' <=? emax - prec); trivial.
Qed.

Lemma float_of_int_nonneg z f :
  0 <= z -> float_of_int z = Return f -> nonneg (Float f).
Proof.
  unfold float_of_int, binary_normalize. intros Hz.
  destruct z as [|p|p]; try lia.
  - intros H; inversion H; exact I.
  - unfold binary_round.
    destruct (shl_align p 0 _) as [mz ez].
    pose proof (binary_round_aux_sign false (Zpos mz) ez loc_Exact) as Hs.
    destruct (binary_round_aux prec emax false (Zpos mz) ez loc_Exact);
      intros H; inversion H; subst; simpl; trivial.
Qed.

Lemma positive_float_sign g :
  positive (Float g) = true ->
  g = S754_infinity false \/ exists m e, g = S754_finite false m e.
Proof.
  unfold positive, SFltb, SFcompare.
  destruct g as [s|s| |s m e]; try discriminate.
  - destruct s; [discriminate | auto].
  - destruct s; [discriminate | eauto].
Qed.

Lemma positive_not_le0 x : positive x = true -> le0 x = false.
Proof.
  destruct x as [z|g]; simpl.
  - intros H. apply Z.ltb_lt in H. apply Z.leb_gt. exact H.
  - intros H. destruct (positive_float_sign g H) as [->|(m & e & ->)]; reflexivity.
Qed.

Lemma SFmul_nonneg f g :
  nonneg (Float f) -> positive (Float g) = true ->
  nonneg (Float (SFmul prec emax f g)).
Proof.
  intros Hf Hg.
  destruct (positive_float_sign g Hg) as [->|(m & e & ->)];
    destruct f as [s|s| |s mf ef]; simpl in *; trivial.
  subst s. simpl.
  pose proof (binary_round_aux_sign false (Zpos (mf * m)) (ef + e) loc_Exact) as Hs.
  destruct (binary_round_aux prec emax false (Zpos (mf * m)) (ef + e) loc_Exact);
    trivial.
Qed.

(** The product of a non-negative [int] by a positive number is not
    negative. *)
Lemma mul_nonneg w s p :
  0 <= w -> positive s = true -> mul (Int w) s = Return p -> nonneg p.
Proof.
  intros Hw Hs. destruct s as [y|g]; simpl.
  - intros H; inversion H; subst. simpl in *. apply Z.ltb_lt in Hs. nia.
  - destruct (float_of_int w) as [f|e] eqn:Hf; intros H; inversion H; subst.
    apply SFmul_nonneg; [eapply float_of_int_nonneg; eauto | exact Hs].
Qed.

(** On a finite number that is not negative, [int] is the floor of the
    real value. *)
Lemma int_floor x q :
  nonneg x -> to_Q x = Some q -> int x = Return (Qfloor q).
Proof.
  destruct x as [z|f]; cbn [nonneg to_Q int].
  - intros _ H; inversion H; subst. now rewrite Qfloor_Z.
  - destruct f as [s|s| |s m e]; cbn [nonneg to_Q int]; try discriminate.
    + intros _ H; inversion H; subst. reflexivity.
    + intros -> H; inversion H; subst; clear H.
      destruct e as [|p|p].
      * rewrite Qfloor_Z. reflexivity.
      * rewrite Qfloor_Z. reflexivity.
      * unfold Qfloor. change (0 <=? Z.neg p) with false.
        change (- Z.neg p) with (Z.pos p).
        rewrite Pos2Z.inj_pow. reflexivity.
Qed.

Lemma int_nonneg x n : nonneg x -> int x = Return n -> 0 <= n.
Proof.
  destruct x as [z|f]; cbn [nonneg int].
  - intros Hz H; inversion H; subst; exact Hz.
  - destruct f as [s|s| |s m e]; cbn [nonneg int]; try discriminate.
    + intros _ [= <-]; lia.
    + intros -> [= <-].
      change (0 <= (if 0 <=? e then Z.pos m * 2 ^ e else Z.pos m / 2 ^ (- e))).
      destruct (0 <=? e) eqn:He.
      * apply Z.leb_le in He. apply Z.mul_nonneg_nonneg; [lia|].
        apply Z.pow_nonneg; lia.
      * apply Z.leb_gt in He. apply Z.div_pos; [lia|].
        apply Z.pow_pos_nonneg; lia.
Qed.

(** ** The buffer *)

(** What is written to a fresh buffer is read back after [seek(0)]... *)
Lemma BytesIO_write_seek_read b :
  io.read (io.seek (io.write io.new b) 0) = b.
Proof.
  unfold io.read, io.seek, io.write, io.new; simpl.
  rewrite skipn_nil. apply app_nil_r.
Qed.

(** ... and not without it: the position is then at the end. *)
Lemma BytesIO_write_read b : io.read (io.write io.new b) = [].
Proof.
  unfold io.read, io.write, io.new; simpl.
  rewrite skipn_nil, app_nil_r. apply skipn_all.
Qed.

(** ** The stages of [resize_image] *)

Ltac inv H := inversion H; subst; clear H.

(** Case analysis on the next monadic step of a hypothesis. *)
Ltac step H :=
  match type of H with
  | Py.bind ?c _ = _ =>
      let E := fresh "E" in
      destruct c eqn:E; cbn [Py.bind] in H; [| discriminate H]
  end.

Lemma render_inv lib img new_width new_height a :
  render lib img new_width new_height = Return a ->
  exists resized_img b output_img,
    Image_resize lib img (new_width, new_height) PIL.LANCZOS = Return resized_img /\
    encode lib resized_img "PNG" = Return b /\
    Image_save lib resized_img io.new "PNG" = Return (io.write io.new b) /\
    Image_open lib (io.seek (io.write io.new b) 0) = Return output_img /\
    decode lib b = Return output_img /\
    np_array lib output_img = Return a.
Proof.
  unfold render. intros H. step H.
  unfold Image_save in *. destruct (encode lib a0 "PNG") as [b|e] eqn:Eb;
    cbn [Py.bind] in H; [| discriminate H].
  destruct (Image_open lib (io.seek (io.write io.new b) 0)) as [d|e] eqn:Ed;
    cbn [Py.bind] in H; [| discriminate H].
  exists a0, b, d.
  assert (Hd : decode lib b = Return d).
  { unfold Image_open in Ed. now rewrite BytesIO_write_seek_read in Ed. }
  repeat split; trivial.
  now rewrite Eb.
Qed.

Lemma render_intro lib img new_width new_height resized_img b output_img a :
  Image_resize lib img (new_width, new_height) PIL.LANCZOS = Return resized_img ->
  encode lib resized_img "PNG" = Return b ->
  decode lib b = Return output_img ->
  np_array lib output_img = Return a ->
  render lib img new_width new_height = Return a.
Proof.
  intros Hr Hb Hd Ha. unfold render, Image_save, Image_open.
  rewrite Hr; cbn [Py.bind]. rewrite Hb; cbn [Py.bind].
  rewrite BytesIO_write_seek_read, Hd; cbn [Py.bind]. exact Ha.
Qed.

(** An early [return] of [new_size] carries no image. *)
Lemma new_size_early w h m sf tw th r :
  new_size w h m sf tw th = Return (ReturnEarly r) ->
  r = (None, msg_scale) \/ r = (None, msg_size).
Proof.
  unfold new_size.
  destruct (String.eqb m "比例調整").
  - destruct sf as [s|]; [destruct (le0 s) |]; intros H.
    + inv H; auto.
    + step H. step H. step H. step H. discriminate H.
    + inv H; auto.
  - destruct tw as [w'|], th as [h'|];
      [ destruct ((w' =? 0) || (h' =? 0) || (w' <=? 0) || (h' <=? 0)) | | | ];
      intros H; inv H; auto.
Qed.

(** A successful call went through every stage. *)
Lemma resize_image_success lib input_image m sf tw th q a msg :
  resize_image lib input_image m sf tw th q = Return (Some a, msg) ->
  exists input img0 img new_width new_height,
    input_image = Some input /\
    load lib input = Return img0 /\
    normalize lib img0 = Return img /\
    new_size (fst (PIL.size img)) (snd (PIL.size img)) m sf tw th
      = Return (Continue (new_width, new_height)) /\
    render lib img new_width new_height = Return a /\
    msg = info_message (fst (PIL.size img)) (snd (PIL.size img))
            new_width new_height.
Proof.
  unfold resize_image.
  destruct input_image as [input|]; [| discriminate].
  destruct (try_body lib input m sf tw th) as [r|e] eqn:Hb; [| discriminate].
  intros H; inv H.
  unfold try_body in Hb. step Hb. step Hb.
  destruct (PIL.size a1) as [w h] eqn:Hsz.
  step Hb. destruct a2 as [[nw nh]|r].
  - step Hb. inv Hb.
    exists input, a0, a1, nw, nh. rewrite Hsz. simpl. repeat split; trivial.
  - inv Hb. apply new_size_early in E1. destruct E1; discriminate.
Qed.

(** The converse: what the call returns once the stages have returned. *)
Lemma resize_image_intro lib input img0 img m sf tw th q nw nh a :
  load lib input = Return img0 ->
  normalize lib img0 = Return img ->
  new_size (fst (PIL.size img)) (snd (PIL.size img)) m sf tw th
    = Return (Continue (nw, nh)) ->
  render lib img nw nh = Return a ->
  resize_image lib (Some input) m sf tw th q
  = Return (Some a, info_message (fst (PIL.size img)) (snd (PIL.size img)) nw nh).
Proof.
  intros Hl Hn Hs Hr. unfold resize_image, try_body.
  rewrite Hl; cbn [Py.bind]. rewrite Hn; cbn [Py.bind].
  destruct (PIL.size img) as [w h]. cbn [fst snd] in *.
  rewrite Hs; cbn [Py.bind]. rewrite Hr; cbn [Py.bind]. reflexivity.
Qed.

(** An early [return] of [new_size] is what the call returns. *)
Lemma resize_image_early lib input img0 img m sf tw th q r :
  load lib input = Return img0 ->
  normalize lib img0 = Return img ->
  new_size (fst (PIL.size img)) (snd (PIL.size img)) m sf tw th
    = Return (ReturnEarly r) ->
  resize_image lib (Some input) m sf tw th q = Return r.
Proof.
  intros Hl Hn Hs. unfold resize_image, try_body.
  rewrite Hl; cbn [Py.bind]. rewrite Hn; cbn [Py.bind].
  destruct (PIL.size img) as [w h]. cbn [fst snd] in *.
  rewrite Hs; cbn [Py.bind]. reflexivity.
Qed.

(** ** The reference instance honours the contract *)

Lemma Z_of_byte_of_Z z : Ref.Z_of_byte (Ref.byte_of_Z z) = z mod 256.
Proof.
  unfold Ref.Z_of_byte, Ref.byte_of_Z.
  assert (Hr : 0 <= z mod 256 < 256) by (apply Z.mod_pos_bound; lia).
  destruct (Byte.of_N (Z.to_N (z mod 256))) as [b|] eqn:Hb.
  - apply Byte.to_of_N in Hb. rewrite Hb. apply Z2N.id. lia.
  - apply Byte.of_N_None_iff in Hb. lia.
Qed.

Lemma of_be32_be32 z :
  0 <= z < 4294967296 ->
  Ref.of_be32 (Ref.byte_of_Z (z / 16777216)) (Ref.byte_of_Z (z / 65536))
              (Ref.byte_of_Z (z / 256)) (Ref.byte_of_Z z) = z.
Proof.
  intros Hz. unfold Ref.of_be32. rewrite !Z_of_byte_of_Z.
  Z.to_euclidean_division_equations. lia.
Qed.

Lemma colour_type_inv m c :
  Ref.colour_type m = Some c ->
  exists n, Ref.mode_of_colour_type c = Some (m, n).
Proof.
  unfold Ref.colour_type.
  destruct (String.eqb_spec m "L") as [->|_]; [intros [= <-]; simpl; eauto|].
  destruct (String.eqb_spec m "LA") as [->|_]; [intros [= <-]; simpl; eauto|].
  destruct (String.eqb_spec m "RGB") as [->|_]; [intros [= <-]; simpl; eauto|].
  destruct (String.eqb_spec m "RGBA") as [->|_]; [intros [= <-]; simpl; eauto|].
  discriminate.
Qed.

Lemma Ref_convert_RGBA img img' :
  Ref.convert img "RGBA" = Return img' ->
  PIL.mode img' = "RGBA" /\ PIL.size img' = PIL.size img /\
  PIL.four_channel img' /\
  (Ref.transparency img = false -> PIL.fully_opaque img').
Proof.
  unfold Ref.convert.
  destruct (Ref.bands (PIL.mode img)) as [n|] eqn:Hb; [| discriminate].
  change (String.eqb "RGBA" "RGBA") with true. cbv iota.
  intros [= <-]. cbn [PIL.mode PIL.size].
  repeat split.
  - unfold PIL.four_channel; cbn [PIL.pixels].
    apply Forall_map, Forall_forall. intros p _. unfold Ref.rgba_of.
    repeat match goal with |- context [if ?c then _ else _] => destruct c end;
      reflexivity.
  - unfold Ref.transparency, PIL.fully_opaque; cbn [PIL.pixels].
    intros Ht. apply orb_false_iff in Ht. destruct Ht as [Hla Hrgba].
    apply Forall_map, Forall_forall. intros p _. unfold Ref.rgba_of.
    rewrite Hla. unfold Ref.bands in Hb. rewrite Hla, Hrgba in Hb.
    destruct (String.eqb (PIL.mode img) "L"); [reflexivity|].
    destruct (String.eqb (PIL.mode img) "RGB"); [reflexivity | discriminate].
Qed.

Lemma Ref_resize_size img sz f img' :
  Ref.resize img sz f = Return img' ->
  PIL.size img' = sz /\ PIL.mode img' = PIL.mode img /\
  (sz = PIL.size img \/ (1 <= fst sz /\ 1 <= snd sz)).
Proof.
  unfold Ref.resize. destruct sz as [w h], (PIL.size img) as [W H] eqn:Hsz.
  destruct ((w =? W) && (h =? H)) eqn:Hsame.
  - apply andb_true_iff in Hsame. destruct Hsame as [Hw Hh].
    apply Z.eqb_eq in Hw, Hh. subst W H.
    intros [= <-]. auto.
  - destruct ((w <? 1) || (h <? 1)) eqn:Hc; [discriminate|].
    apply orb_false_iff in Hc. destruct Hc as [Hw Hh].
    apply Z.ltb_ge in Hw, Hh.
    intros [= <-]. cbn [PIL.mode PIL.size fst snd]. auto.
Qed.

Lemma Ref_png_round_trip img b img' :
  Ref.save_bytes img "PNG" = Return b ->
  Ref.open_bytes b = Return img' ->
  PIL.size img' = PIL.size img.
Proof.
  unfold Ref.save_bytes.
  change (negb (String.eqb "PNG" "PNG")) with false. cbv iota.
  destruct (PIL.size img) as [w h].
  destruct (Ref.colour_type (PIL.mode img)) as [c|] eqn:Hc; [| discriminate].
  destruct (Ref.in_range w && Ref.in_range h) eqn:Hr; [| discriminate].
  intros [= <-].
  unfold Ref.open_bytes, Ref.signature, Ref.be32. cbn [app].
  destruct (list_eq_dec _ _ _) as [_|Hne]; [| congruence].
  destruct (colour_type_inv _ _ Hc) as [n ->].
  intros [= <-]. cbn [PIL.size].
  apply andb_true_iff in Hr. destruct Hr as [Hw Hh].
  unfold Ref.in_range in Hw, Hh.
  apply andb_true_iff in Hw, Hh. destruct Hw as [Hw1 Hw2], Hh as [Hh1 Hh2].
  apply Z.leb_le in Hw1, Hh1. apply Z.ltb_lt in Hw2, Hh2.
  rewrite !of_be32_be32 by lia. reflexivity.
Qed.

Lemma Ref_array_shape img a :
  Ref.array img = Return a ->
  firstn 2 (np.shape a) = [snd (PIL.size img); fst (PIL.size img)].
Proof.
  unfold Ref.array. destruct (PIL.size img) as [w h].
  destruct (Ref.bands (PIL.mode img)) as [[|[|n]]|]; try discriminate;
    intros [= <-]; reflexivity.
Qed.

Lemma Ref_contract : Contract Ref.lib.
Proof.
  constructor; cbn [Ref.lib Image_convert Image_resize encode decode np_array
                    has_transparency_data].
  - exact Ref_convert_RGBA.
  - exact Ref_resize_size.
  - exact Ref_png_round_trip.
  - exact Ref_array_shape.
Qed.

(** ** What a rendered array looks like, under the contract *)

Lemma render_shape lib img nw nh a :
  Contract lib ->
  render lib img nw nh = Return a ->
  firstn 2 (np.shape a) = [nh; nw]
  /\ ((nw, nh) = PIL.size img \/ (1 <= nw /\ 1 <= nh)).
Proof.
  intros C H.
  destruct (render_inv _ _ _ _ _ H) as (r & b & d & Hr & Hb & _ & _ & Hd & Ha).
  destruct (resize_size lib C _ _ _ _ Hr) as (Hsz & _ & Hpos).
  pose proof (png_round_trip lib C _ _ _ Hb Hd) as Hsd.
  rewrite (array_shape lib C _ _ Ha), Hsd, Hsz. auto.
Qed.

(** ** Scale mode *)

Lemma new_size_scale w h s tw th pw ph nw nh :
  le0 s = false ->
  mul (Int w) s = Return pw -> int pw = Return nw ->
  mul (Int h) s = Return ph -> int ph = Return nh ->
  new_size w h scale_method (Some s) tw th = Return (Continue (nw, nh)).
Proof.
  intros Hs Hpw Hnw Hph Hnh. unfold new_size, scale_method.
  rewrite String.eqb_refl, Hs, Hpw; cbn [Py.bind].
  rewrite Hnw; cbn [Py.bind]. rewrite Hph; cbn [Py.bind].
  rewrite Hnh; reflexivity.
Qed.

(** C1 (amended).  In Scale mode with a strictly positive scale factor,
    on an image that loads and normalises, whenever the two products
    [original_width * scale_factor] and [original_height * scale_factor]
    are finite, the new width and height are their floors (truncation, not
    rounding); and once resampling, encoding, decoding and the array
    conversion have returned, the call succeeds with these dimensions in
    its message and, under the library contract, in the returned array. *)
Theorem scale_dimensions_floor lib input img0 img s tw th q pw ph qw qh :
  load lib input = Return img0 ->
  normalize lib img0 = Return img ->
  0 <= fst (PIL.size img) -> 0 <= snd (PIL.size img) ->
  positive s = true ->
  mul (Int (fst (PIL.size img))) s = Return pw -> to_Q pw = Some qw ->
  mul (Int (snd (PIL.size img))) s = Return ph -> to_Q ph = Some qh ->
  new_size (fst (PIL.size img)) (snd (PIL.size img)) scale_method (Some s) tw th
  = Return (Continue (Qfloor qw, Qfloor qh))
  /\ forall a,
       render lib img (Qfloor qw) (Qfloor qh) = Return a ->
       resize_image lib (Some input) scale_method (Some s) tw th q
       = Return (Some a, info_message (fst (PIL.size img)) (snd (PIL.size img))
                           (Qfloor qw) (Qfloor qh))
       /\ (Contract lib -> firstn 2 (np.shape a) = [Qfloor qh; Qfloor qw]).
Proof.
  intros Hl Hn Hw Hh Hs Hpw Hqw Hph Hqh.
  assert (Hsz : new_size (fst (PIL.size img)) (snd (PIL.size img))
                  scale_method (Some s) tw th
                = Return (Continue (Qfloor qw, Qfloor qh))).
  { apply (new_size_scale _ _ s tw th pw ph); trivial.
    - now apply positive_not_le0.
    - apply int_floor; [exact (mul_nonneg _ _ _ Hw Hs Hpw) | exact Hqw].
    - apply int_floor; [exact (mul_nonneg _ _ _ Hh Hs Hph) | exact Hqh]. }
  split; [exact Hsz|].
  intros a Ha. split.
  - eapply resize_image_intro; eauto.
  - intros C. now destruct (render_shape lib img _ _ a C Ha).
Qed.

(** The hypotheses are met by a 4x2 image scaled by 2.5, which comes out
    10x5. *)
Lemma scale_dimensions_floor_witness :
  let img := solid "RGBA" 4 2 [10; 20; 30; 255] in
  new_size 4 2 scale_method (Some (literal 5 2)) None None
  = Return (Continue (10, 5))
  /\ forall a,
       render Ref.lib img 10 5 = Return a ->
       resize_image Ref.lib (Some (PILImage img)) scale_method
         (Some (literal 5 2)) None None (Int 90)
       = Return (Some a, info_message 4 2 10 5)
       /\ (Contract Ref.lib -> firstn 2 (np.shape a) = [5; 10]).
Proof.
  intros img.
  exact (scale_dimensions_floor Ref.lib (PILImage img) img img (literal 5 2)
           None None (Int 90)
           (Float (S754_finite false 5629499534213120 (-49)))
           (Float (S754_finite false 5629499534213120 (-50)))
           (5629499534213120 # 562949953421312)
           (5629499534213120 # 1125899906842624)
           eq_refl eq_refl
           ltac:(vm_compute; discriminate) ltac:(vm_compute; discriminate)
           eq_refl eq_refl eq_refl eq_refl eq_refl).
Defined.

(** C1, as stated, fails: a strictly positive scale factor does not make
    the call succeed.  With [float('inf')] the truncation raises; with 0.1
    on a 5x5 image the computed size is 0x0, which the resampler refuses. *)
Lemma scale_positive_may_fail :
  (positive inf = true /\
   resize_image Ref.lib (Some (PILImage (solid "RGBA" 100 200 [10; 20; 30; 255])))
     scale_method (Some inf) None None (Int 90)
   = Return (None, (msg_error ++ "cannot convert float infinity to integer")%string))
  /\
  (positive (literal 1 10) = true /\
   resize_image Ref.lib (Some (PILImage (solid "RGBA" 5 5 [10; 20; 30; 255])))
     scale_method (Some (literal 1 10)) None None (Int 90)
   = Return (None, (msg_error ++ "height and width must be > 0")%string)).
Proof. repeat split; vm_compute; reflexivity. Qed.

(** ** Explicit mode *)

Lemma new_size_custom w h m sf tw th :
  String.eqb m scale_method = false ->
  new_size w h m sf tw th =
  match tw, th with
  | Some tw, Some th =>
      if (0 <? tw) && (0 <? th)
      then Return (Continue (tw, th))
      else Return (ReturnEarly (None, msg_size))
  | _, _ => Return (ReturnEarly (None, msg_size))
  end.
Proof.
  intros Hm. unfold new_size, scale_method in *. rewrite Hm.
  destruct tw as [x|], th as [y|]; try reflexivity.
  destruct (Z.eqb_spec x 0), (Z.eqb_spec y 0), (Z.leb_spec x 0),
    (Z.leb_spec y 0), (Z.ltb_spec 0 x), (Z.ltb_spec 0 y);
    try reflexivity; lia.
Qed.

(** C2 (amended).  In Explicit mode, on an image that loads and
    normalises: when both targets are present and strictly positive the new size is exactly
    the pair of targets, whatever the original size, and once the library
    steps have returned the call succeeds with them in the message and,
    under the contract, as the dimensions of the returned array; when a
    target is missing or not positive the call returns no image and the
    message asking for a valid width and height. *)
Theorem explicit_dimensions lib input img0 img sf tw th q :
  load lib input = Return img0 ->
  normalize lib img0 = Return img ->
  (forall w h,
     tw = Some w -> th = Some h -> 0 < w -> 0 < h ->
     new_size (fst (PIL.size img)) (snd (PIL.size img)) custom_method sf tw th
     = Return (Continue (w, h))
     /\ forall a,
          render lib img w h = Return a ->
          resize_image lib (Some input) custom_method sf tw th q
          = Return (Some a, info_message (fst (PIL.size img))
                              (snd (PIL.size img)) w h)
          /\ (Contract lib -> firstn 2 (np.shape a) = [h; w]))
  /\ (valid_target tw && valid_target th = false ->
      resize_image lib (Some input) custom_method sf tw th q
      = Return (None, msg_size)).
Proof.
  intros Hl Hn.
  pose proof (new_size_custom (fst (PIL.size img)) (snd (PIL.size img))
                custom_method sf tw th eq_refl) as Hs.
  split.
  - intros w h -> -> Hw Hh.
    apply Z.ltb_lt in Hw, Hh. rewrite Hw, Hh in Hs. cbn [andb] in Hs.
    split; [exact Hs|]. intros a Ha. split.
    + eapply resize_image_intro; eauto.
    + intros C. now destruct (render_shape lib img _ _ a C Ha).
  - intros Hv. eapply resize_image_early; eauto. rewrite Hs.
    destruct tw as [w|], th as [h|]; try reflexivity.
    cbn [valid_target] in Hv. now rewrite Hv.
Qed.

(** A 3x3 image resized to 5x4, and the same image with a target width
    of 0. *)
Lemma explicit_dimensions_witness :
  let img := solid "RGB" 3 3 [10; 20; 30] in
  (exists a,
     resize_image Ref.lib (Some (PILImage img)) custom_method None
       (Some 5) (Some 4) (Int 90)
     = Return (Some a, info_message 3 3 5 4)
     /\ firstn 2 (np.shape a) = [4; 5])
  /\ resize_image Ref.lib (Some (PILImage img)) custom_method None
       (Some 0) (Some 100) (Int 90)
     = Return (None, msg_size).
Proof.
  intros img.
  destruct (Ref.convert img "RGBA") as [rgba|] eqn:Hc; [| discriminate Hc].
  split.
  - destruct (render Ref.lib rgba 5 4) as [a|] eqn:Ha;
      [| vm_compute in Hc; injection Hc as <-; discriminate Ha].
    exists a.
    destruct (explicit_dimensions Ref.lib (PILImage img) img rgba None
                (Some 5) (Some 4) (Int 90) eq_refl Hc) as [Hok _].
    destruct (Hok 5 4 eq_refl eq_refl ltac:(lia) ltac:(lia)) as [_ Hok'].
    destruct (Hok' a Ha) as [Hres Hshape].
    assert (Hsz : PIL.size rgba = (3, 3))
      by (vm_compute in Hc; injection Hc as <-; reflexivity).
    rewrite Hsz in Hres. split; [exact Hres | exact (Hshape Ref_contract)].
  - destruct (explicit_dimensions Ref.lib (PILImage img) img rgba None
                (Some 0) (Some 100) (Int 90) eq_refl Hc) as [_ Hbad].
    exact (Hbad eq_refl).
Defined.

(** C2, as stated, fails on both halves.  An input that is not [None]
    but cannot be loaded (a one-dimensional array) gives the processing
    error with positive targets, and gives it again, not the width-and-
    height message, with a target width of 0: loading comes before the
    validation.  And positive targets do not make the call succeed: on a
    3x3 image a target width of 2^31 ends in the processing error. *)
Lemma explicit_may_fail :
  let unloadable := Array {| np.shape := [3]; np.data := [1; 2; 3] |} in
  let img := solid "RGBA" 3 3 [10; 20; 30; 255] in
  (exists e,
     resize_image Ref.lib (Some unloadable) custom_method None
       (Some 5) (Some 4) (Int 90)
     = Return (None, (msg_error ++ exc_str e)%string))
  /\ (exists e,
        resize_image Ref.lib (Some unloadable) custom_method None
          (Some 0) (Some 100) (Int 90)
        = Return (None, (msg_error ++ exc_str e)%string))
  /\ resize_image Ref.lib (Some unloadable) custom_method None
       (Some 0) (Some 100) (Int 90)
     <> Return (None, msg_size)
  /\ (exists e,
        resize_image Ref.lib (Some (PILImage img)) custom_method None
          (Some 2147483648) (Some 1) (Int 90)
        = Return (None, (msg_error ++ exc_str e)%string)).
Proof.
  intros unloadable img. repeat split.
  - exists (Exception "TypeError" "Cannot handle this data type"). reflexivity.
  - exists (Exception "TypeError" "Cannot handle this data type"). reflexivity.
  - discriminate.
  - exists (Exception "ValueError" "cannot write image of this size").
    lazy. reflexivity.
Qed.

(** ** The [try] boundary *)

Lemma raised_try_body lib input m sf tw th e :
  raised lib input m sf tw th e -> try_body lib input m sf tw th = Raise e.
Proof.
  intros H; unfold try_body; destruct H as
    [Hl | i0 Hl Hn | i0 i Hl Hn Hs | i0 i nw nh Hl Hn Hs Hr
     | i0 i nw nh r Hl Hn Hs Hr He | i0 i nw nh r b Hl Hn Hs Hr He Hd
     | i0 i nw nh r b d Hl Hn Hs Hr He Hd Ha];
    rewrite Hl; cbn [Py.bind]; trivial;
    rewrite Hn; cbn [Py.bind]; trivial;
    destruct (PIL.size i) as [w h]; cbn [fst snd] in Hs;
    rewrite Hs; cbn [Py.bind]; trivial;
    unfold render, Image_save, Image_open;
    rewrite Hr; cbn [Py.bind]; trivial;
    rewrite He; cbn [Py.bind]; trivial;
    rewrite BytesIO_write_seek_read, Hd; cbn [Py.bind]; trivial;
    rewrite Ha; reflexivity.
Qed.

(** Every exception of the body is one of these. *)
Lemma try_body_raised lib input m sf tw th e :
  try_body lib input m sf tw th = Raise e -> raised lib input m sf tw th e.
Proof.
  unfold try_body. intros H.
  destruct (load lib input) as [i0|e0] eqn:Hl; cbn [Py.bind] in H;
    [| inv H; now apply raised_loading].
  destruct (normalize lib i0) as [i|e0] eqn:Hn; cbn [Py.bind] in H;
    [| inv H; now apply raised_normalization with i0].
  destruct (PIL.size i) as [w h] eqn:Hsz.
  assert (Hw : w = fst (PIL.size i)) by now rewrite Hsz.
  assert (Hh : h = snd (PIL.size i)) by now rewrite Hsz.
  destruct (new_size w h m sf tw th) as [[[nw nh]|r]|e0] eqn:Hs;
    cbn [Py.bind] in H; subst w h;
    [| discriminate H | inv H; now apply raised_dimensions with i0 i].
  unfold render, Image_save, Image_open in H.
  destruct (Image_resize lib i (nw, nh) PIL.LANCZOS) as [r|e0] eqn:Hr;
    cbn [Py.bind] in H; [| inv H; now apply raised_resampling with i0 i nw nh].
  destruct (encode lib r "PNG") as [b|e0] eqn:He; cbn [Py.bind] in H;
    [| inv H; now apply raised_encoding with i0 i nw nh r].
  rewrite BytesIO_write_seek_read in H.
  destruct (decode lib b) as [d|e0] eqn:Hd; cbn [Py.bind] in H;
    [| inv H; now apply raised_decoding with i0 i nw nh r b].
  destruct (np_array lib d) as [a|e0] eqn:Ha; cbn [Py.bind] in H;
    [discriminate H | inv H; now apply raised_array with i0 i nw nh r b d].
Qed.

(** C4.  The call always returns a pair, and an exception raised while
    loading, normalising, computing the size, resampling, encoding,
    decoding or converting to an array comes back as no image together with
    the error message (the source's wording of "Error processing image: ")
    followed by [str(e)]. *)
Theorem exceptions_become_messages lib input_image m sf tw th q :
  (exists r, resize_image lib input_image m sf tw th q = Return r)
  /\ forall input e,
       input_image = Some input ->
       raised lib input m sf tw th e ->
       resize_image lib input_image m sf tw th q
       = Return (None, (msg_error ++ exc_str e)%string).
Proof.
  split.
  - unfold resize_image. destruct input_image as [input|]; [| eauto].
    destruct (try_body lib input m sf tw th); eauto.
  - intros input e -> H. unfold resize_image.
    now rewrite (raised_try_body _ _ _ _ _ _ _ H).
Qed.

(** A one-dimensional array is not an image: [Image.fromarray] raises. *)
Lemma exceptions_become_messages_witness :
  resize_image Ref.lib (Some (Array {| np.shape := [3]; np.data := [1; 2; 3] |}))
    custom_method None (Some 3) (Some 2) (Int 90)
  = Return (None, (msg_error ++ "Cannot handle this data type")%string).
Proof.
  apply (proj2 (exceptions_become_messages Ref.lib
                  (Some (Array {| np.shape := [3]; np.data := [1; 2; 3] |}))
                  custom_method None (Some 3) (Some 2) (Int 90))
           _ (Exception "TypeError" "Cannot handle this data type") eq_refl).
  apply raised_loading. reflexivity.
Defined.

(** ** The missing image, the quality, the mode *)

(** C5.  Without an image the call returns no image and the message
    asking for an upload, whatever the other arguments and whatever the
    library would do: no call into it is made. *)
Theorem missing_image lib m sf tw th q :
  resize_image lib None m sf tw th q = Return (None, msg_upload).
Proof. reflexivity. Qed.

(** C7.  The result does not depend on [quality]. *)
Theorem quality_unused lib input_image m sf tw th q1 q2 :
  resize_image lib input_image m sf tw th q1
  = resize_image lib input_image m sf tw th q2.
Proof. reflexivity. Qed.



(** ** Normalisation to RGBA *)

Lemma normalize_spec lib img :
  (PIL.mode img <> "RGBA" -> normalize lib img = Image_convert lib img "RGBA")
  /\ (PIL.mode img = "RGBA" -> normalize lib img = Return img).
Proof.
  unfold normalize.
  destruct (String.eqb_spec (PIL.mode img) "RGBA") as [He|Hne]; cbn [negb];
    split; intros H; congruence.
Qed.

Lemma normalize_RGBA lib img img' :
  Contract lib ->
  normalize lib img = Return img' ->
  PIL.mode img' = "RGBA" /\ PIL.size img' = PIL.size img.
Proof.
  intros C. unfold normalize.
  destruct (String.eqb_spec (PIL.mode img) "RGBA") as [He|Hne]; cbn [negb].
  - intros [= <-]. auto.
  - intros H. destruct (convert_RGBA lib C _ _ H) as (Hm & Hs & _). auto.
Qed.

(** C6 (amended).  An image whose mode is not RGBA is passed through
    [convert('RGBA')] and an RGBA image is left as it is; the image handed
    to the resampler is the normalised one and its mode is RGBA.  Under the
    library contract the converted image has four bands, and its alpha band
    is fully opaque when the source carries no transparency data. *)
Theorem normalization_to_RGBA lib :
  Contract lib ->
  (forall img,
     PIL.mode img <> "RGBA" ->
     normalize lib img = Image_convert lib img "RGBA"
     /\ forall img',
          Image_convert lib img "RGBA" = Return img' ->
          PIL.mode img' = "RGBA" /\ PIL.four_channel img' /\
          (has_transparency_data lib img = false -> PIL.fully_opaque img'))
  /\ (forall img, PIL.mode img = "RGBA" -> normalize lib img = Return img)
  /\ (forall input_image m sf tw th q a msg,
        resize_image lib input_image m sf tw th q = Return (Some a, msg) ->
        exists input img0 img nw nh resized_img,
          input_image = Some input /\
          load lib input = Return img0 /\
          normalize lib img0 = Return img /\
          PIL.mode img = "RGBA" /\
          Image_resize lib img (nw, nh) PIL.LANCZOS = Return resized_img).
Proof.
  intros C. split; [| split].
  - intros img Hne. split; [now apply normalize_spec|].
    intros img' H. destruct (convert_RGBA lib C _ _ H) as (Hm & _ & H4 & Ho).
    auto.
  - intros img He. now apply normalize_spec.
  - intros input_image m sf tw th q a msg H.
    destruct (resize_image_success _ _ _ _ _ _ _ _ _ H)
      as (input & i0 & i & nw & nh & -> & Hl & Hn & _ & Hr & _).
    destruct (render_inv _ _ _ _ _ Hr) as (r & _ & _ & Hrs & _).
    exists input, i0, i, nw, nh, r. repeat split; trivial.
    now destruct (normalize_RGBA lib i0 i C Hn).
Qed.

(** An RGB image of two pixels comes out of the normalisation as RGBA,
    four bands, alpha 255. *)
Lemma normalization_to_RGBA_witness :
  exists img',
    normalize Ref.lib (solid "RGB" 2 1 [10; 20; 30]) = Return img' /\
    PIL.mode img' = "RGBA" /\ PIL.four_channel img' /\ PIL.fully_opaque img'.
Proof.
  destruct (normalization_to_RGBA Ref.lib Ref_contract) as (Hconv & _ & _).
  destruct (Hconv (solid "RGB" 2 1 [10; 20; 30]) ltac:(discriminate))
    as [Hn Hspec].
  destruct (Image_convert Ref.lib (solid "RGB" 2 1 [10; 20; 30]) "RGBA")
    as [img'|e] eqn:Hc; [| discriminate Hc].
  exists img'. destruct (Hspec img' eq_refl) as (Hm & H4 & Ho).
  repeat split; trivial. exact (Ho eq_refl).
Defined.

(** C6, as stated, fails: a grey image with an alpha band (mode LA) is not
    RGBA, and its transparent pixels stay transparent through the
    conversion and through the whole call. *)
Lemma transparency_is_kept :
  let img := solid "LA" 2 1 [10; 0] in
  PIL.mode img <> "RGBA"
  /\ (exists img',
        normalize Ref.lib img = Return img' /\
        PIL.mode img' = "RGBA" /\ ~ PIL.fully_opaque img')
  /\ resize_image Ref.lib (Some (PILImage img)) custom_method None
       (Some 2) (Some 1) (Int 90)
     = Return (Some {| np.shape := [1; 2; 4];
                       np.data := [10; 10; 10; 0; 10; 10; 10; 0] |},
               info_message 2 1 2 1).
Proof.
  intros img. split; [discriminate|]. split.
  - eexists. split; [reflexivity|]. split; [reflexivity|].
    intros H. inversion H as [|p l Hp _]. discriminate Hp.
  - reflexivity.
Qed.

(** ** The round trip through PNG *)


(** ** The message *)

Lemma normalize_size lib img img' :
  Contract lib -> normalize lib img = Return img' ->
  PIL.size img' = PIL.size img.
Proof. intros C H. now destruct (normalize_RGBA lib img img' C H). Qed.

(** C9.  On success the message is exactly the three lines of line 56:
    the original-size label with the width and height of the normalised
    image, the resized-to label with the width and height that [new_size]
    computed, and the PNG notice, the labels being the source's wording of
    "Original size: ", "Resized to: " and "Saved as PNG format"; under the
    library contract the first pair is the size of the image as loaded and
    the second the size of the returned array. *)
Theorem info_message_format lib input_image m sf tw th q a msg :
  resize_image lib input_image m sf tw th q = Return (Some a, msg) ->
  exists original_width original_height new_width new_height,
    msg = (label_original_size ++ str original_width ++ "x"
           ++ str original_height ++ LF
           ++ label_resized_to ++ str new_width ++ "x" ++ str new_height ++ LF
           ++ label_saved_as_png)%string
    /\ exists input img0 img,
         input_image = Some input /\
         load lib input = Return img0 /\
         normalize lib img0 = Return img /\
         PIL.size img = (original_width, original_height) /\
         new_size original_width original_height m sf tw th
         = Return (Continue (new_width, new_height)) /\
         (Contract lib ->
          PIL.size img0 = (original_width, original_height) /\
          firstn 2 (np.shape a) = [new_height; new_width]).
Proof.
  intros H.
  destruct (resize_image_success _ _ _ _ _ _ _ _ _ H)
    as (input & i0 & i & nw & nh & -> & Hl & Hn & Hs & Hr & ->).
  exists (fst (PIL.size i)), (snd (PIL.size i)), nw, nh.
  split; [reflexivity|].
  exists input, i0, i.
  split; [reflexivity|]. split; [exact Hl|]. split; [exact Hn|].
  split; [now destruct (PIL.size i)|]. split; [exact Hs|].
  intros C. split.
  - rewrite <- (normalize_size lib i0 i C Hn). now destruct (PIL.size i).
  - now destruct (render_shape lib i nw nh a C Hr).
Qed.

(** A 4x2 image scaled by 2.5. *)
Lemma info_message_format_witness :
  exists a msg,
    resize_image Ref.lib (Some (PILImage (solid "RGBA" 4 2 [10; 20; 30; 255])))
      scale_method (Some (literal 5 2)) None None (Int 90)
    = Return (Some a, msg)
    /\ exists original_width original_height new_width new_height,
         msg = (label_original_size ++ str original_width ++ "x"
                ++ str original_height ++ LF
                ++ label_resized_to ++ str new_width ++ "x" ++ str new_height
                ++ LF ++ label_saved_as_png)%string
         /\ exists input img0 img,
              Some (PILImage (solid "RGBA" 4 2 [10; 20; 30; 255])) = Some input /\
              load Ref.lib input = Return img0 /\
              normalize Ref.lib img0 = Return img /\
              PIL.size img = (original_width, original_height) /\
              new_size original_width original_height scale_method
                (Some (literal 5 2)) None None
              = Return (Continue (new_width, new_height)) /\
              (Contract Ref.lib ->
               PIL.size img0 = (original_width, original_height) /\
               firstn 2 (np.shape a) = [new_height; new_width]).
Proof.
  destruct (resize_image Ref.lib
              (Some (PILImage (solid "RGBA" 4 2 [10; 20; 30; 255])))
              scale_method (Some (literal 5 2)) None None (Int 90))
    as [[[a|] msg]|e] eqn:H;
    [| vm_compute in H; discriminate H | vm_compute in H; discriminate H].
  exists a, msg. split; [reflexivity|].
  exact (info_message_format _ _ _ _ _ _ _ _ _ H).
Defined.


(** ** A scaled dimension of zero *)

(** Under the contract a size below 1x1 that is not the size of the
    image itself is never rendered: the call ends in the error message of
    the [except] clause. *)
Lemma degenerate_size_is_an_error lib input img0 img m sf tw th q nw nh :
  Contract lib ->
  load lib input = Return img0 ->
  normalize lib img0 = Return img ->
  new_size (fst (PIL.size img)) (snd (PIL.size img)) m sf tw th
    = Return (Continue (nw, nh)) ->
  nw < 1 \/ nh < 1 ->
  (nw, nh) <> PIL.size img ->
  exists e,
    resize_image lib (Some input) m sf tw th q
    = Return (None, (msg_error ++ exc_str e)%string).
Proof.
  intros C Hl Hn Hs Hz Hne.
  destruct (render lib img nw nh) as [a|e] eqn:Hr.
  - destruct (render_shape lib img nw nh a C Hr) as (_ & [He|[Hw Hh]]);
      [contradiction | lia].
  - exists e. unfold resize_image, try_body.
    rewrite Hl; cbn [Py.bind]. rewrite Hn; cbn [Py.bind].
    destruct (PIL.size img) as [w h]; cbn [fst snd] in Hs.
    rewrite Hs; cbn [Py.bind]. rewrite Hr; reflexivity.
Qed.

(** C3 (the code at the failing input).  A 5x5 image in Scale mode with
    the slider's minimum, 0.1: the factor passes the check of line 33, both
    products truncate to 0, the size 0x0 goes to [img.resize], and the
    caller gets the resampler's refusal as a processing error. *)
Theorem scale_truncates_to_zero :
  positive (literal 1 10) = true
  /\ new_size 5 5 scale_method (Some (literal 1 10)) None None
     = Return (Continue (0, 0))
  /\ resize_image Ref.lib (Some (PILImage (solid "RGBA" 5 5 [10; 20; 30; 255])))
       scale_method (Some (literal 1 10)) None None (Int 90)
     = Return (None, (msg_error ++ "height and width must be > 0")%string)
  /\ new_size 5 5 custom_method None (Some 0) (Some 0)
     = Return (ReturnEarly (None, msg_size)).
Proof. repeat split; vm_compute; reflexivity. Qed.

(** ** The scenarios of the specification *)

(** 100x200 scaled by 2.5 is 250x500. *)
Example scenario_scale :
  new_size 100 200 scale_method (Some (literal 5 2)) None None
  = Return (Continue (250, 500))
  /\ info_message 100 200 250 500
     = ("原始尺寸: 100x200" ++ LF ++ "調整後尺寸: 250x500" ++ LF
        ++ "已保存為 PNG 格式")%string.
Proof. split; vm_compute; reflexivity. Qed.

(** 300x300 with targets 50 and 400 is 50x400. *)
Example scenario_explicit :
  new_size 300 300 custom_method None (Some 50) (Some 400)
  = Return (Continue (50, 400)).
Proof. reflexivity. Qed.

(** A scale factor of 0 and a target width of 0 are refused. *)
Example scenario_invalid :
  new_size 100 200 scale_method (Some (Int 0)) None None
  = Return (ReturnEarly (None, msg_scale))
  /\ new_size 100 200 scale_method (Some (literal 0 1)) None None
     = Return (ReturnEarly (None, msg_scale))
  /\ new_size 100 200 custom_method None (Some 0) (Some 100)
     = Return (ReturnEarly (None, msg_size)).
Proof. repeat split; vm_compute; reflexivity. Qed.

(** Truncation is not rounding to nearest, and the product is the
    floating-point one: 3 * 0.5 gives 1, and 10 * 0.7, which is 7.0 in
    binary64 although 0.7 lies below seven tenths, gives 7. *)
Example truncation_examples :
  new_size 3 10 scale_method (Some (literal 1 2)) None None
  = Return (Continue (1, 5))
  /\ new_size 10 10 scale_method (Some (literal 7 10)) None None
     = Return (Continue (7, 7)).
Proof. split; vm_compute; reflexivity. Qed.

(** * Beyond the claims *)

(** ** The file-name check *)

Lemma Str_eqb_eq a b : Str.eqb a b = true <-> a = b.
Proof.
  revert b; induction a as [|x a IH]; intros [|y b]; simpl;
    try (split; [discriminate | discriminate]); [tauto|].
  rewrite andb_true_iff, Z.eqb_eq, IH. split.
  - intros [-> ->]; reflexivity.
  - intros [= -> ->]; auto.
Qed.

Lemma endswith_spec s suffix :
  Str.endswith s suffix = true <-> exists pre, s = (pre ++ suffix)%list.
Proof.
  unfold Str.endswith. rewrite andb_true_iff, Nat.leb_le, Str_eqb_eq. split.
  - intros [Hlen Hs]. exists (firstn (length s - length suffix) s).
    transitivity (firstn (length s - length suffix) s
                  ++ skipn (length s - length suffix) s)%list;
      [symmetry; apply firstn_skipn | now f_equal].
  - intros [pre ->]. rewrite length_app. split; [lia|].
    replace (length pre + length suffix - length suffix)%nat
      with (length pre) by lia.
    rewrite skipn_app, skipn_all, Nat.sub_diag. reflexivity.
Qed.

Section LowerFacts.

Variable unicode_lower : Str.str -> nat -> Z -> Str.str.

Lemma lower_from_app s i a b :
  Str.lower_from unicode_lower s i (a ++ b)%list
  = (Str.lower_from unicode_lower s i a
     ++ Str.lower_from unicode_lower s (i + length a) b)%list.
Proof.
  revert i; induction a as [|c a IH]; intros i; simpl.
  - now rewrite Nat.add_0_r.
  - rewrite IH, <- app_assoc.
    replace (S i + length a)%nat with (i + S (length a))%nat by lia.
    reflexivity.
Qed.

Lemma lower_from_ascii s i a :
  Forall (fun c => Str.is_ascii c = true) a ->
  Str.lower_from unicode_lower s i a = map Str.ascii_lower a.
Proof.
  intros H; revert i; induction H as [|c a Hc _ IH]; intros i; simpl.
  - reflexivity.
  - unfold Str.lower_at. now rewrite Hc, IH.
Qed.

(** The lower-cased name ends with the ASCII-lowered ending, whatever
    comes before it. *)
Lemma lower_ascii_ending stem ext :
  Forall (fun c => Str.is_ascii c = true) ext ->
  exists pre,
    Str.lower unicode_lower (stem ++ ext)%list
    = (pre ++ map Str.ascii_lower ext)%list.
Proof.
  intros H. unfold Str.lower. rewrite lower_from_app, (lower_from_ascii _ _ _ H).
  eauto.
Qed.

Lemma accepted_ending stem ext :
  Forall (fun c => Str.is_ascii c = true) ext ->
  In (map Str.ascii_lower ext) valid_formats ->
  is_valid_image unicode_lower {| name := (stem ++ ext)%list |} = true.
Proof.
  intros Ha Hin. unfold is_valid_image. apply existsb_exists.
  exists (map Str.ascii_lower ext). split; [exact Hin|].
  apply endswith_spec. cbn [name]. now apply lower_ascii_ending.
Qed.

(** X2.  A name whose ending, ASCII letters in either case, lower-cases
    to one of the five extensions is accepted, whatever precedes the
    ending (ASCII or not). *)
Theorem is_valid_image_any_case stem ext :
  Forall (fun c => Str.is_ascii c = true) ext ->
  In (map Str.ascii_lower ext) valid_formats ->
  is_valid_image unicode_lower {| name := (stem ++ ext)%list |} = true.
Proof. exact (accepted_ending stem ext). Qed.

(** X3.  On an ASCII name the check holds exactly when the name ends,
    letter case aside, with one of the five extensions; nothing else of
    the name is looked at. *)
Theorem is_valid_image_ascii_iff n :
  Forall (fun c => Str.is_ascii c = true) n ->
  is_valid_image unicode_lower {| name := n |} = true
  <-> exists stem ext,
        n = (stem ++ ext)%list /\ In (map Str.ascii_lower ext) valid_formats.
Proof.
  intros Ha. split.
  - unfold is_valid_image. intros H. apply existsb_exists in H.
    destruct H as (fmt & Hin & He). cbn [name] in He.
    unfold Str.lower in He. rewrite (lower_from_ascii _ _ _ Ha) in He.
    apply endswith_spec in He. destruct He as [pre He].
    exists (firstn (length pre) n), (skipn (length pre) n).
    split; [symmetry; apply firstn_skipn|].
    rewrite <- skipn_map, He, skipn_app, skipn_all, Nat.sub_diag. exact Hin.
  - intros (stem & ext & -> & Hin).
    apply accepted_ending; [| exact Hin].
    apply Forall_app in Ha. tauto.
Qed.

End LowerFacts.

(** "圖.Photo.JPG" is accepted. *)
Lemma is_valid_image_any_case_witness :
  is_valid_image (fun _ _ c => [c])
    {| name := ([22294] ++ Str.of_ascii ".Photo" ++ Str.of_ascii ".JPG")%list |}
  = true.
Proof.
  rewrite app_assoc.
  apply (is_valid_image_any_case (fun _ _ c => [c])
           ([22294] ++ Str.of_ascii ".Photo")%list (Str.of_ascii ".JPG")).
  - repeat constructor.
  - vm_compute. auto.
Defined.

(** "scan.png.txt" is rejected and "X.WebP" accepted. *)
Lemma is_valid_image_ascii_iff_witness :
  is_valid_image (fun _ _ c => [c]) {| name := Str.of_ascii "X.WebP" |} = true
  /\ ~ exists stem ext,
         Str.of_ascii "scan.png.txt" = (stem ++ ext)%list
         /\ In (map Str.ascii_lower ext) valid_formats.
Proof.
  split.
  - apply (proj2 (is_valid_image_ascii_iff (fun _ _ c => [c])
                    (Str.of_ascii "X.WebP") ltac:(repeat constructor))).
    exists (Str.of_ascii "X"), (Str.of_ascii ".WebP"). split; [reflexivity|].
    vm_compute. auto 10.
  - intros H.
    apply (proj2 (is_valid_image_ascii_iff (fun _ _ c => [c])
                    (Str.of_ascii "scan.png.txt") ltac:(repeat constructor)))
      in H.
    vm_compute in H. discriminate H.
Defined.

(** ** The outcomes of [resize_image] *)

(** The call after a successful load and normalisation, stage by stage. *)
Lemma resize_image_cases lib input img0 img m sf tw th q :
  load lib input = Return img0 ->
  normalize lib img0 = Return img ->
  resize_image lib (Some input) m sf tw th q =
  match new_size (fst (PIL.size img)) (snd (PIL.size img)) m sf tw th with
  | Return (ReturnEarly r) => Return r
  | Return (Continue (nw, nh)) =>
      match render lib img nw nh with
      | Return a =>
          Return (Some a, info_message (fst (PIL.size img))
                            (snd (PIL.size img)) nw nh)
      | Raise e => Return (None, (msg_error ++ exc_str e)%string)
      end
  | Raise e => Return (None, (msg_error ++ exc_str e)%string)
  end.
Proof.
  intros Hl Hn. unfold resize_image, try_body.
  rewrite Hl; cbn [Py.bind]. rewrite Hn; cbn [Py.bind].
  destruct (PIL.size img) as [w h]; cbn [fst snd].
  destruct (new_size w h m sf tw th) as [[[nw nh]|r]|e]; cbn [Py.bind];
    try reflexivity.
  destruct (render lib img nw nh); reflexivity.
Qed.

(** Two requests that compute the same size give the same result. *)
Lemma resize_image_ext lib input_image m sf tw th q m' sf' tw' th' q' :
  (forall w h, new_size w h m sf tw th = new_size w h m' sf' tw' th') ->
  resize_image lib input_image m sf tw th q
  = resize_image lib input_image m' sf' tw' th' q'.
Proof.
  intros H. unfold resize_image, try_body.
  destruct input_image as [input|]; [| reflexivity].
  destruct (load lib input) as [i0|]; cbn [Py.bind]; [| reflexivity].
  destruct (normalize lib i0) as [i|]; cbn [Py.bind]; [| reflexivity].
  destruct (PIL.size i) as [w h]. now rewrite H.
Qed.

(** X6.  Every call returns one of five things: the upload message when
    there is no image; the scale message, in Scale mode only; the size
    message, in the other modes only; the error message followed by the
    text of an exception that the body raised; or an array together with
    the info message.  No message of the first four kinds comes with an
    image, and an image never comes without the info message. *)
Theorem resize_image_outcomes lib input_image m sf tw th q :
  exists r,
    resize_image lib input_image m sf tw th q = Return r
    /\ ((input_image = None /\ r = (None, msg_upload))
        \/ exists input,
             input_image = Some input
             /\ ((m = scale_method /\ r = (None, msg_scale))
                 \/ (m <> scale_method /\ r = (None, msg_size))
                 \/ (exists e,
                       raised lib input m sf tw th e
                       /\ r = (None, (msg_error ++ exc_str e)%string))
                 \/ (exists img0 img nw nh a,
                       load lib input = Return img0
                       /\ normalize lib img0 = Return img
                       /\ new_size (fst (PIL.size img)) (snd (PIL.size img))
                            m sf tw th = Return (Continue (nw, nh))
                       /\ render lib img nw nh = Return a
                       /\ r = (Some a,
                               info_message (fst (PIL.size img))
                                 (snd (PIL.size img)) nw nh)))).
Proof.
  destruct input_image as [input|]; [| eexists; split; [reflexivity | auto]].
  destruct (try_body lib input m sf tw th) as [r|e] eqn:Hb.
  - exists r. split; [unfold resize_image; now rewrite Hb|].
    right. exists input. split; [reflexivity|].
    unfold try_body in Hb. step Hb. step Hb.
    destruct (PIL.size a0) as [w h] eqn:Hsz.
    assert (Hw : w = fst (PIL.size a0)) by now rewrite Hsz.
    assert (Hh : h = snd (PIL.size a0)) by now rewrite Hsz.
    step Hb. destruct a1 as [[nw nh]|r'].
    + step Hb. inv Hb. right; right; right.
      exists a, a0, nw, nh, a1. rewrite Hsz. cbn [fst snd]. auto.
    + inv Hb. unfold new_size in E1.
      destruct (String.eqb_spec m "比例調整") as [->|Hm].
      * left. split; [reflexivity|].
        destruct sf as [s|]; [destruct (le0 s) |]; try (now inv E1).
        do 4 step E1. discriminate E1.
      * right; left. split; [exact Hm|].
        destruct tw as [x|], th as [y|]; try (now inv E1).
        destruct ((x =? 0) || (y =? 0) || (x <=? 0) || (y <=? 0)); now inv E1.
  - exists (None, (msg_error ++ exc_str e)%string).
    split; [unfold resize_image; now rewrite Hb|].
    right. exists input. split; [reflexivity|]. right; right; left.
    exists e. split; [now apply try_body_raised | reflexivity].
Qed.

(** ** Scale factors that are not positive, not finite, not a number *)

Lemma le0_not_positive s : le0 s = true <-> not_positive (Some s).
Proof.
  unfold not_positive. destruct s as [z|[sg|sg| |sg m e]]; cbn [le0 to_Q].
  - rewrite Z.leb_le. split.
    + intros Hz. right. exists (inject_Z z). split; [reflexivity|].
      unfold Qle; simpl; lia.
    + intros [H|(q & [= <-] & Hq)]; [discriminate|].
      unfold Qle in Hq; simpl in Hq; lia.
  - split; [| reflexivity]. intros _. right. exists 0%Q.
    split; [reflexivity | apply Qle_refl].
  - destruct sg; split; try reflexivity; try discriminate.
    + intros _. now left.
    + intros [H|(q & H & _)]; discriminate.
  - split; [discriminate|]. intros [H|(q & H & _)]; discriminate.
  - assert (Hpos : forall q0,
              q0 = match e with
                   | Z.neg p => Z.pos m # 2 ^ p
                   | _ => inject_Z (Z.pos m * 2 ^ e)
                   end -> (0 < Qnum q0)).
    { intros q0 ->. destruct e as [|p|p]; cbn [Qnum inject_Z]; [| | lia];
        (apply Z.mul_pos_pos; [lia | apply Z.pow_pos_nonneg; lia]). }
    specialize (Hpos _ eq_refl).
    set (q0 := match e with
               | Z.neg p => Z.pos m # 2 ^ p
               | _ => inject_Z (Z.pos m * 2 ^ e)
               end) in *.
    clearbody q0. destruct q0 as [n d]. cbn [Qnum] in Hpos.
    destruct sg; (split; [| intros [H|(q & [= <-] & Hq)]; [discriminate|]]).
    + intros _. right. eexists. split; [reflexivity|].
      unfold Qle, Qopp; cbn [Qnum Qden]. lia.
    + reflexivity.
    + discriminate.
    + unfold Qle in Hq; cbn [Qnum Qden] in Hq. lia.
Qed.

Lemma msg_error_is_not_a_validation_message x :
  (msg_error ++ x)%string <> msg_scale /\ (msg_error ++ x)%string <> msg_size
  /\ (msg_error ++ x)%string <> msg_upload.
Proof. repeat split; simpl; discriminate. Qed.

(** X4.  On an image that loads and normalises, Scale mode answers with
    the scale message exactly when the scale factor is missing or its
    value is zero or negative (minus infinity included); the targets play
    no part. *)
Theorem scale_message_iff lib input img0 img sf tw th q :
  load lib input = Return img0 ->
  normalize lib img0 = Return img ->
  resize_image lib (Some input) scale_method sf tw th q
  = Return (None, msg_scale)
  <-> not_positive sf.
Proof.
  intros Hl Hn. rewrite (resize_image_cases _ _ _ _ _ _ _ _ _ Hl Hn).
  unfold new_size, scale_method. rewrite String.eqb_refl.
  destruct sf as [s|]; [| split; [intros _; exact I | reflexivity]].
  destruct (le0 s) eqn:Hs.
  - split; [intros _; now apply le0_not_positive | reflexivity].
  - split.
    + intros H. exfalso.
      destruct (mul (Int (fst (PIL.size img))) s) as [pw|e]; cbn [Py.bind] in H;
        [| inv H; try now apply (msg_error_is_not_a_validation_message (exc_str e))].
      destruct (int pw) as [nw|e]; cbn [Py.bind] in H;
        [| inv H; try now apply (msg_error_is_not_a_validation_message (exc_str e))].
      destruct (mul (Int (snd (PIL.size img))) s) as [ph|e]; cbn [Py.bind] in H;
        [| inv H; try now apply (msg_error_is_not_a_validation_message (exc_str e))].
      destruct (int ph) as [nh|e]; cbn [Py.bind] in H;
        [| inv H; try now apply (msg_error_is_not_a_validation_message (exc_str e))].
      destruct (render lib img nw nh) as [a|e]; inv H;
        try now apply (msg_error_is_not_a_validation_message (exc_str e)).
    + intros H. apply le0_not_positive in H. congruence.
Qed.

(** A 3x3 image with the factors [None], 0, -0.5 and 0.5. *)
Lemma scale_message_iff_witness :
  let img := solid "RGBA" 3 3 [10; 20; 30; 255] in
  resize_image Ref.lib (Some (PILImage img)) scale_method (Some (literal (-1) 2))
    (Some 7) (Some 7) (Int 90)
  = Return (None, msg_scale)
  /\ ~ not_positive (Some (literal 1 2)).
Proof.
  intros img. split.
  - apply (proj2 (scale_message_iff Ref.lib (PILImage img) img img
                    (Some (literal (-1) 2)) (Some 7) (Some 7) (Int 90)
                    eq_refl eq_refl)).
    right. eexists. split; [reflexivity|]. vm_compute. discriminate.
  - intros H.
    apply (proj2 (scale_message_iff Ref.lib (PILImage img) img img
                    (Some (literal 1 2)) None None (Int 90) eq_refl eq_refl))
      in H.
    vm_compute in H. discriminate H.
Defined.

(** ** Binary64 rounding

    What [SpecFloat]'s rounding does to the products the Scale branch
    forms: exact on whole numbers below 2^53, and never below the power of
    two under the exact product. *)

Lemma D_bounds p : 2 ^ (D p - 1) <= Zpos p < 2 ^ D p.
Proof.
  unfold D. induction p as [p IH|p IH|]; cbn [digits2_pos].
  - rewrite Pos2Z.inj_succ.
    replace (Z.succ (Zpos (digits2_pos p)) - 1) with (Z.succ (Zpos (digits2_pos p) - 1)) by lia.
    rewrite !Z.pow_succ_r by lia. lia.
  - rewrite Pos2Z.inj_succ.
    replace (Z.succ (Zpos (digits2_pos p)) - 1) with (Z.succ (Zpos (digits2_pos p) - 1)) by lia.
    rewrite !Z.pow_succ_r by lia. lia.
  - simpl. lia.
Qed.

Lemma D_unique p k : 2 ^ (k - 1) <= Zpos p < 2 ^ k -> D p = k.
Proof.
  intros [Hl Hu]. pose proof (D_bounds p) as [Hl' Hu'].
  assert (0 < D p) by (unfold D; lia).
  assert (0 < k).
  { destruct (Z_lt_le_dec 0 k); trivial.
    assert (2 ^ k <= 1); [| lia].
    destruct (Z.eq_dec k 0) as [->|]; [simpl; lia|].
    rewrite Z.pow_neg_r by lia. lia. }
  destruct (Z_lt_le_dec (D p) k).
  - assert (2 ^ D p <= 2 ^ (k - 1)) by (apply Z.pow_le_mono_r; lia). lia.
  - destruct (Z_lt_le_dec k (D p)); [| lia].
    assert (2 ^ k <= 2 ^ (D p - 1)) by (apply Z.pow_le_mono_r; lia). lia.
Qed.

Lemma D_shift p q j : 0 <= j -> Zpos q = Zpos p * 2 ^ j -> D q = D p + j.
Proof.
  intros Hj Hq. apply D_unique. pose proof (D_bounds p) as [Hl Hu].
  assert (0 < D p) by (unfold D; lia).
  rewrite Hq. replace (D p + j - 1) with (D p - 1 + j) by lia.
  rewrite !Z.pow_add_r by lia.
  assert (0 < 2 ^ j) by (apply Z.pow_pos_nonneg; lia). nia.
Qed.

Lemma shr_1_double m : 0 <= m ->
  shr_1 {| shr_m := 2 * m; shr_r := false; shr_s := false |}
  = {| shr_m := m; shr_r := false; shr_s := false |}.
Proof. destruct m as [|p|p]; try lia; reflexivity. Qed.

Lemma iter_shr_exact n : forall m, 0 <= m ->
  iter_pos shr_1 n {| shr_m := m * 2 ^ Zpos n; shr_r := false; shr_s := false |}
  = {| shr_m := m; shr_r := false; shr_s := false |}.
Proof.
  induction n as [n IH|n IH|]; intros m Hm; cbn [iter_pos].
  - replace (m * 2 ^ Zpos n~1) with (2 * ((m * 2 ^ Zpos n) * 2 ^ Zpos n)).
    + rewrite shr_1_double, IH, IH; trivial.
      * apply Z.mul_nonneg_nonneg; [lia | apply Z.pow_nonneg; lia].
      * apply Z.mul_nonneg_nonneg; [| apply Z.pow_nonneg; lia].
        apply Z.mul_nonneg_nonneg; [lia | apply Z.pow_nonneg; lia].
    + rewrite Pos2Z.inj_xI, Z.pow_add_r, Z.pow_mul_r by lia.
      change (2 ^ 2) with 4. change (2 ^ 1) with 2.
      replace (4 ^ Zpos n) with (2 ^ Zpos n * 2 ^ Zpos n); [ring|].
      rewrite <- Z.pow_add_r by lia. replace (Zpos n + Zpos n) with (2 * Zpos n) by lia.
      rewrite Z.pow_mul_r by lia. reflexivity.
  - replace (m * 2 ^ Zpos n~0) with ((m * 2 ^ Zpos n) * 2 ^ Zpos n).
    + rewrite IH, IH; trivial.
      apply Z.mul_nonneg_nonneg; [lia | apply Z.pow_nonneg; lia].
    + rewrite Pos2Z.inj_xO, <- Z.mul_assoc, <- Z.pow_add_r by lia.
      f_equal. f_equal. lia.
  - change (2 ^ 1) with 2. rewrite Z.mul_comm. now apply shr_1_double.
Qed.

Lemma fexp_normal E : -1021 <= E -> fexp prec emax E = E - 53.
Proof. intros H. unfold fexp, emin, prec, emax. lia. Qed.

Lemma round_no_shift m e :
  fexp prec emax (D m + e) <= e -> e <= 971 ->
  binary_round_aux prec emax false (Zpos m) e loc_Exact = S754_finite false m e.
Proof.
  intros Hf He. unfold binary_round_aux, shr_fexp.
  cbn [Zdigits2 shr_record_of_loc]. fold (D m).
  assert (Hs : forall mrs, shr mrs e (fexp prec emax (D m + e) - e) = (mrs, e)).
  { intros mrs. unfold shr.
    destruct (fexp prec emax (D m + e) - e) eqn:E; try reflexivity. lia. }
  rewrite Hs. cbn [shr_m loc_of_shr_record round_nearest_even Zdigits2 shr_record_of_loc].
  fold (D m). rewrite Hs. cbn [shr_m].
  replace (e <=? emax - prec) with true; [reflexivity|].
  symmetry. apply Z.leb_le. unfold emax, prec. lia.
Qed.

Lemma shr_pos mrs e n : shr mrs e (Zpos n) = (iter_pos shr_1 n mrs, e + Zpos n).
Proof. reflexivity. Qed.

Lemma round_shift_exact m k e n :
  Zpos m = Zpos k * 2 ^ Zpos n ->
  fexp prec emax (D m + e) - e = Zpos n ->
  fexp prec emax (D k + (e + Zpos n)) <= e + Zpos n ->
  e + Zpos n <= 971 ->
  binary_round_aux prec emax false (Zpos m) e loc_Exact
  = S754_finite false k (e + Zpos n).
Proof.
  intros Hm Hn Hf He.
  unfold binary_round_aux, shr_fexp.
  cbn [Zdigits2 shr_record_of_loc]. fold (D m).
  rewrite Hn, shr_pos, Hm, iter_shr_exact by lia.
  cbn [shr_m loc_of_shr_record round_nearest_even Zdigits2 shr_record_of_loc].
  fold (D k).
  assert (Hs : forall mrs,
             shr mrs (e + Zpos n)
               (fexp prec emax (D k + (e + Zpos n)) - (e + Zpos n))
             = (mrs, e + Zpos n)).
  { intros mrs. unfold shr.
    destruct (fexp prec emax (D k + (e + Zpos n)) - (e + Zpos n)) eqn:E;
      try reflexivity. lia. }
  rewrite Hs. cbn [shr_m].
  replace (e + Zpos n <=? emax - prec) with true; [reflexivity|].
  symmetry. apply Z.leb_le. unfold emax, prec. lia.
Qed.

Lemma iter_xO p d : Zpos (Pos.iter xO p d) = Zpos p * 2 ^ Zpos d.
Proof.
  induction d as [|d IH] using Pos.peano_ind.
  - cbn [Pos.iter]. change (2 ^ 1) with 2. lia.
  - rewrite Pos.iter_succ, Pos2Z.inj_xO, IH, Pos2Z.inj_succ, Z.pow_succ_r by lia.
    ring.
Qed.

(** [float(w)] is exact below 2^53. *)
Lemma float_of_int_exact p :
  D p <= 53 ->
  exists q,
    Zpos q = Zpos p * 2 ^ (53 - D p)
    /\ float_of_int (Zpos p) = Return (S754_finite false q (D p - 53)).
Proof.
  intros Hd. assert (Hpos : 0 < D p) by (unfold D; lia).
  unfold float_of_int, binary_normalize, binary_round.
  fold (D p). rewrite Z.add_0_r, fexp_normal by lia.
  unfold shl_align. rewrite Z.sub_0_r.
  destruct (D p - 53) as [|d|d] eqn:E; try lia.
  - exists p. split.
    + replace (53 - D p) with 0 by lia. rewrite Z.pow_0_r. lia.
    + rewrite round_no_shift; [reflexivity| |lia].
      rewrite Z.add_0_r, fexp_normal by lia. lia.
  - exists (Pos.iter xO p d).
    assert (Hq : Zpos (Pos.iter xO p d) = Zpos p * 2 ^ (53 - D p)).
    { rewrite iter_xO. f_equal. f_equal. lia. }
    split; [exact Hq|].
    rewrite round_no_shift; [reflexivity| |lia].
    rewrite (D_shift p _ (53 - D p)) by (lia || exact Hq).
    rewrite fexp_normal by lia. lia.
Qed.

Lemma pos_shift z j : 0 <= j -> exists k, Zpos k = Zpos z * 2 ^ j.
Proof.
  intros Hj. assert (0 < Zpos z * 2 ^ j).
  { apply Z.mul_pos_pos; [lia | apply Z.pow_pos_nonneg; lia]. }
  exists (Z.to_pos (Zpos z * 2 ^ j)). now rewrite Z2Pos.id.
Qed.

Lemma D_mul_lower a b : D a + D b - 1 <= D (a * b).
Proof.
  pose proof (D_bounds a) as [Ha _]. pose proof (D_bounds b) as [Hb _].
  pose proof (D_bounds (a * b)) as [_ Hab].
  assert (0 < D a) by (unfold D; lia). assert (0 < D b) by (unfold D; lia).
  assert (0 < D (a * b)) by (unfold D; lia).
  rewrite Pos2Z.inj_mul in Hab.
  assert (H2 : 2 ^ (D a - 1 + (D b - 1)) < 2 ^ D (a * b)).
  { rewrite Z.pow_add_r by lia.
    assert (0 < 2 ^ (D a - 1)) by (apply Z.pow_pos_nonneg; lia).
    assert (0 < 2 ^ (D b - 1)) by (apply Z.pow_pos_nonneg; lia). nia. }
  apply Z.pow_lt_mono_r_iff in H2; lia.
Qed.

Lemma D_le_53 p : Zpos p < 2 ^ 53 -> D p <= 53.
Proof.
  intros H. pose proof (D_bounds p) as [Hl _].
  assert (0 < D p) by (unfold D; lia).
  assert (H2 : 2 ^ (D p - 1) < 2 ^ 53) by lia.
  apply Z.pow_lt_mono_r_iff in H2; lia.
Qed.

(** The product of two integers held exactly is exact when it is below
    2^53. *)
Lemma SFmul_int_exact pw pk qw qk :
  Zpos pw * Zpos pk < 2 ^ 53 ->
  Zpos qw = Zpos pw * 2 ^ (53 - D pw) ->
  Zpos qk = Zpos pk * 2 ^ (53 - D pk) ->
  int (Float (SFmul prec emax (S754_finite false qw (D pw - 53))
                              (S754_finite false qk (D pk - 53))))
  = Return (Zpos pw * Zpos pk).
Proof.
  intros Hz Hqw Hqk.
  assert (Hw : D pw <= 53) by (apply D_le_53; nia).
  assert (Hk : D pk <= 53) by (apply D_le_53; nia).
  assert (Hpw : 0 < D pw) by (unfold D; lia).
  assert (Hpk : 0 < D pk) by (unfold D; lia).
  set (z := (pw * pk)%positive).
  assert (Hzz : Zpos z = Zpos pw * Zpos pk) by reflexivity.
  assert (Hdz : D z <= 53) by (apply D_le_53; lia).
  assert (Hdz' : D pw + D pk - 1 <= D z) by apply D_mul_lower.
  set (j := 106 - D pw - D pk).
  assert (Hm : Zpos (qw * qk) = Zpos z * 2 ^ j).
  { rewrite Pos2Z.inj_mul, Hqw, Hqk, Hzz. unfold j.
    replace (106 - D pw - D pk) with ((53 - D pw) + (53 - D pk)) by lia.
    rewrite Z.pow_add_r by lia. ring. }
  destruct (pos_shift z (53 - D z)) as [k Hkz]; [lia|].
  assert (HDk : D k = 53).
  { rewrite (D_shift z k (53 - D z)); [lia | lia | exact Hkz]. }
  assert (HDm : D (qw * qk) = D z + j).
  { apply (D_shift z); [unfold j; lia | exact Hm]. }
  destruct (D z - 53 + j) as [|n|n] eqn:En; try (unfold j in En; lia).
  assert (Hr : binary_round_aux prec emax false (Zpos (qw * qk))
                 (D pw - 53 + (D pk - 53)) loc_Exact
               = S754_finite false k (D pw - 53 + (D pk - 53) + Zpos n)).
  { apply round_shift_exact.
    - rewrite Hm, Hkz, <- Z.mul_assoc, <- Z.pow_add_r by lia.
      f_equal. f_equal. unfold j in *. lia.
    - rewrite HDm. replace (D z + j + (D pw - 53 + (D pk - 53))) with (D z)
        by (unfold j; lia).
      rewrite fexp_normal by lia. unfold j in *. lia.
    - rewrite HDk.
      replace (53 + (D pw - 53 + (D pk - 53) + Zpos n)) with (D z)
        by (unfold j in *; lia).
      rewrite fexp_normal by lia. unfold j in *. lia.
    - unfold j in *. lia. }
  cbn [SFmul xorb]. rewrite Hr.
  replace (D pw - 53 + (D pk - 53) + Zpos n) with (D z - 53)
    by (unfold j in *; lia).
  cbn [int]. rewrite Hkz, Hzz. f_equal.
  destruct (0 <=? D z - 53) eqn:E0.
  - apply Z.leb_le in E0. replace (D z) with 53 by lia. simpl. lia.
  - replace (- (D z - 53)) with (53 - D z) by lia.
    apply Z.div_mul. apply Z.pow_nonzero; lia.
Qed.

Lemma shr_1_m mrs : 0 <= shr_m mrs -> shr_m (shr_1 mrs) = shr_m mrs / 2.
Proof.
  destruct mrs as [m r s]. cbn [shr_m]. intros Hm. unfold shr_1.
  destruct m as [|[p|p|]|p]; cbn [shr_m]; try lia; try reflexivity.
  - apply (Z.div_unique _ _ _ 1); lia.
  - apply (Z.div_unique _ _ _ 0); lia.
Qed.

Lemma shr_m_iter n : forall mrs,
  0 <= shr_m mrs ->
  shr_m (iter_pos shr_1 n mrs) = shr_m mrs / 2 ^ Zpos n.
Proof.
  assert (Hdiv : forall a b, 0 <= a -> 0 < b -> 0 <= a / b)
    by (intros; apply Z.div_pos; lia).
  assert (Hp : forall k, 0 < 2 ^ Zpos k) by (intros; apply Z.pow_pos_nonneg; lia).
  induction n as [n IH|n IH|]; intros mrs Hm; cbn [iter_pos].
  - assert (H1 : 0 <= shr_m (shr_1 mrs)) by (rewrite shr_1_m by lia; apply Hdiv; lia).
    assert (H2 : 0 <= shr_m (iter_pos shr_1 n (shr_1 mrs)))
      by (rewrite IH by lia; apply Hdiv; auto).
    rewrite IH, IH, shr_1_m by lia.
    rewrite !Z.div_div by (specialize (Hp n); lia).
    f_equal. rewrite Pos2Z.inj_xI, Z.pow_add_r, Z.pow_mul_r by lia.
    change (2 ^ 2) with 4. change (2 ^ 1) with 2.
    replace (4 ^ Zpos n) with (2 ^ Zpos n * 2 ^ Zpos n); [ring|].
    rewrite <- Z.pow_add_r by lia. replace (Zpos n + Zpos n) with (2 * Zpos n) by lia.
    rewrite Z.pow_mul_r by lia. reflexivity.
  - assert (H2 : 0 <= shr_m (iter_pos shr_1 n mrs))
      by (rewrite IH by lia; apply Hdiv; auto).
    rewrite IH, IH by lia.
    rewrite !Z.div_div by (specialize (Hp n); lia).
    f_equal. rewrite Pos2Z.inj_xO, <- Z.pow_add_r by lia. f_equal. lia.
  - change (2 ^ 1) with 2. now apply shr_1_m.
Qed.

Lemma round_nearest_even_bounds m l :
  m <= round_nearest_even m l <= m + 1.
Proof.
  unfold round_nearest_even. destruct l as [|[| |]]; try lia.
  destruct (Z.even m); lia.
Qed.

(** Rounding a product whose value lies in the normal range: the result
    is finite and its magnitude does not drop. *)
Lemma round_normal m e :
  -1021 <= D m + e <= 1023 -> e <= 971 ->
  exists m' e',
    binary_round_aux prec emax false (Zpos m) e loc_Exact
    = S754_finite false m' e'
    /\ D m + e <= D m' + e'.
Proof.
  intros HE He. pose proof (D_bounds m) as [Hml Hmu].
  assert (HDm : 0 < D m) by (unfold D; lia).
  destruct (Z_le_gt_dec (D m) 53) as [Hd|Hd].
  - exists m, e. split; [| lia].
    apply round_no_shift; [rewrite fexp_normal by lia; lia | lia].
  - destruct (D m - 53) as [|n|n] eqn:En; try lia.
    unfold binary_round_aux, shr_fexp.
    cbn [Zdigits2 shr_record_of_loc]. fold (D m).
    replace (fexp prec emax (D m + e) - e) with (Zpos n)
      by (rewrite fexp_normal by lia; lia).
    rewrite shr_pos.
    set (mrs' := iter_pos shr_1 n {| shr_m := Zpos m; shr_r := false; shr_s := false |}).
    assert (Hm1 : shr_m mrs' = Zpos m / 2 ^ Zpos n)
      by (unfold mrs'; rewrite shr_m_iter; cbn [shr_m]; [reflexivity | lia]).
    assert (Hn : Zpos n = D m - 53) by lia.
    assert (Hp : 0 < 2 ^ Zpos n) by (apply Z.pow_pos_nonneg; lia).
    assert (Hsplit : 2 ^ D m = 2 ^ 53 * 2 ^ Zpos n)
      by (rewrite <- Z.pow_add_r by lia; f_equal; lia).
    assert (Hsplit' : 2 ^ (D m - 1) = 2 ^ 52 * 2 ^ Zpos n)
      by (rewrite <- Z.pow_add_r by lia; f_equal; lia).
    assert (Hlo : 2 ^ 52 <= shr_m mrs').
    { rewrite Hm1. apply Z.div_le_lower_bound; lia. }
    assert (Hhi : shr_m mrs' < 2 ^ 53).
    { rewrite Hm1. apply Z.div_lt_upper_bound; lia. }
    pose proof (round_nearest_even_bounds (shr_m mrs') (loc_of_shr_record mrs'))
      as [Hr1 Hr2].
    set (m2 := round_nearest_even (shr_m mrs') (loc_of_shr_record mrs')) in *.
    destruct m2 as [|p2|p2] eqn:Em2; try lia.
    cbn [Zdigits2]. fold (D p2).
    destruct (Z.eq_dec (Zpos p2) (2 ^ 53)) as [Heq|Hne].
    + assert (HD2 : D p2 = 54)
        by (apply D_unique; rewrite Heq; change (54 - 1) with 53;
            split; [lia | apply Z.pow_lt_mono_r; lia]).
      rewrite HD2.
      replace (fexp prec emax (54 + (e + Zpos n)) - (e + Zpos n)) with 1
        by (rewrite fexp_normal by lia; lia).
      rewrite shr_pos. cbn [iter_pos]. rewrite Heq.
      change (2 ^ 53) with (2 * 2 ^ 52). rewrite shr_1_double by lia.
      cbn [shr_m]. change (2 ^ 52) with (Zpos (2 ^ 52)%positive).
      cbv iota.
      replace (e + Zpos n + 1 <=? emax - prec) with true
        by (symmetry; apply Z.leb_le; unfold emax, prec; lia).
      eexists _, _. split; [reflexivity|].
      replace (D (2 ^ 52)) with 53 by reflexivity. lia.
    + assert (HD2 : D p2 = 53) by (apply D_unique; change (53 - 1) with 52; lia).
      rewrite HD2.
      assert (Hs : forall mrs,
                 shr mrs (e + Zpos n)
                   (fexp prec emax (53 + (e + Zpos n)) - (e + Zpos n))
                 = (mrs, e + Zpos n)).
      { intros mrs. unfold shr.
        destruct (fexp prec emax (53 + (e + Zpos n)) - (e + Zpos n)) eqn:E;
          try reflexivity.
        rewrite fexp_normal in E by lia. lia. }
      rewrite Hs. cbn [shr_m].
      replace (e + Zpos n <=? emax - prec) with true
        by (symmetry; apply Z.leb_le; unfold emax, prec; lia).
      exists p2, (e + Zpos n). split; [reflexivity | lia].
Qed.

(** [int] of a finite positive float whose magnitude is at least 1. *)
Lemma int_ge_1 m e :
  1 <= D m + e ->
  exists n, int (Float (S754_finite false m e)) = Return n /\ 1 <= n.
Proof.
  intros HE. cbn [int]. eexists. split; [reflexivity|].
  pose proof (D_bounds m) as [Hml _].
  assert (HDm : 0 < D m) by (unfold D; lia).
  destruct (0 <=? e) eqn:E0.
  - apply Z.leb_le in E0.
    assert (0 < 2 ^ e) by (apply Z.pow_pos_nonneg; lia). nia.
  - apply Z.leb_gt in E0.
    assert (0 < 2 ^ (- e)) by (apply Z.pow_pos_nonneg; lia).
    apply Z.div_le_lower_bound; [lia|].
    assert (2 ^ (- e) <= 2 ^ (D m - 1)) by (apply Z.pow_le_mono_r; lia). lia.
Qed.

Lemma D_mul_upper a b : D (a * b) <= D a + D b.
Proof.
  pose proof (D_bounds a) as [_ Ha]. pose proof (D_bounds b) as [_ Hb].
  pose proof (D_bounds (a * b)) as [Hab _].
  assert (0 < D a) by (unfold D; lia). assert (0 < D b) by (unfold D; lia).
  assert (0 < D (a * b)) by (unfold D; lia).
  rewrite Pos2Z.inj_mul in Hab.
  assert (H2 : 2 ^ (D (a * b) - 1) < 2 ^ (D a + D b)).
  { rewrite (Z.pow_add_r 2 (D a)) by lia. nia. }
  apply Z.pow_lt_mono_r_iff in H2; lia.
Qed.

Lemma float_of_int_0 : float_of_int 0 = Return (S754_zero false).
Proof. reflexivity. Qed.

(** [int(w * k)] for a whole number [k] held in a float. *)
Lemma scaled_whole w k fk :
  0 <= w -> 0 < k < 2 ^ 53 -> w * k < 2 ^ 53 ->
  float_of_int k = Return fk ->
  exists p, mul (Int w) (Float fk) = Return p /\ int p = Return (w * k).
Proof.
  intros Hw Hk Hwk Hfk.
  destruct k as [|pk|pk]; try lia.
  destruct (float_of_int_exact pk) as (qk & Hqk & Hfk'); [apply D_le_53; lia|].
  rewrite Hfk' in Hfk. injection Hfk as <-.
  destruct w as [|pw|pw]; try lia.
  - cbn [mul]. rewrite float_of_int_0. eexists. split; reflexivity.
  - destruct (float_of_int_exact pw) as (qw & Hqw & Hfw); [apply D_le_53; nia|].
    cbn [mul]. rewrite Hfw. eexists. split; [reflexivity|].
    now apply SFmul_int_exact.
Qed.

Lemma Qle_pos_den a b c d :
  (a # b <= c # d)%Q <-> a * Zpos d <= c * Zpos b.
Proof. reflexivity. Qed.

Lemma Qle_tenth a b : (1 # 10 <= a # b)%Q -> Zpos b <= a * 10.
Proof. unfold Qle; cbn [Qnum Qden]. lia. Qed.

Lemma Qle_five a b : (a # b <= 5)%Q -> a <= 5 * Zpos b.
Proof. unfold Qle; cbn [Qnum Qden]. lia. Qed.

(** The sign, mantissa and exponent of a float between one tenth and
    five. *)
Lemma finite_in_range sg ms es q :
  to_Q (Float (S754_finite sg ms es)) = Some q ->
  (1 # 10 <= q)%Q -> (q <= 5)%Q ->
  sg = false /\
  ((exists p, es = Zneg p /\ 2 ^ Zpos p <= Zpos ms * 10
              /\ Zpos ms <= 5 * 2 ^ Zpos p)
   \/ (0 <= es /\ Zpos ms * 2 ^ es <= 5)).
Proof.
  cbn [to_Q]. intros Hq Hlo Hhi.
  apply (f_equal (fun o => match o with Some x => x | None => 0%Q end)) in Hq.
  cbv beta iota in Hq. subst q.
  assert (Hpos : 0 <= es -> 0 < Zpos ms * 2 ^ es)
    by (intros; apply Z.mul_pos_pos; [lia | apply Z.pow_pos_nonneg; lia]).
  destruct es as [|p|p]; cbv iota in Hlo, Hhi.
  - specialize (Hpos ltac:(lia)). remember (Zpos ms * 2 ^ 0) as a eqn:Ea.
    destruct sg; unfold inject_Z, Qopp in Hlo, Hhi; cbn [Qnum Qden] in Hlo, Hhi;
      apply Qle_tenth in Hlo; apply Qle_five in Hhi; [lia|].
    split; [reflexivity|]. right. lia.
  - specialize (Hpos ltac:(lia)). remember (Zpos ms * 2 ^ Zpos p) as a eqn:Ea.
    destruct sg; unfold inject_Z, Qopp in Hlo, Hhi; cbn [Qnum Qden] in Hlo, Hhi;
      apply Qle_tenth in Hlo; apply Qle_five in Hhi; [lia|].
    split; [reflexivity|]. right. lia.
  - clear Hpos.
    destruct sg; unfold Qopp in Hlo, Hhi; cbn [Qnum Qden] in Hlo, Hhi;
      apply Qle_tenth in Hlo; apply Qle_five in Hhi;
      rewrite Pos2Z.inj_pow in Hlo, Hhi; [lia|].
    split; [reflexivity|]. left. exists p. repeat split; lia.
Qed.

(** [int(w * s)] for a factor between one tenth and five and at least ten
    pixels. *)
Lemma scaled_in_range w s q :
  10 <= w < 2 ^ 53 ->
  to_Q s = Some q -> (1 # 10 <= q)%Q -> (q <= 5)%Q ->
  exists p n, mul (Int w) s = Return p /\ int p = Return n /\ 1 <= n.
Proof.
  intros Hw Hq Hlo Hhi.
  destruct s as [z|[sg|sg| |sg ms es]]; try discriminate.
  - cbn [to_Q] in Hq. injection Hq as <-.
    unfold inject_Z in Hlo. apply Qle_tenth in Hlo.
    exists (Int (w * z)), (w * z). repeat split. nia.
  - cbn [to_Q] in Hq. injection Hq as <-.
    apply (Qle_tenth 0 1) in Hlo. lia.
  - destruct w as [|pw|pw]; try lia.
    destruct (float_of_int_exact pw) as (qw & Hqw & Hfw); [apply D_le_53; lia|].
    assert (HDw : 0 < D pw <= 53) by (split; [unfold D; lia | apply D_le_53; lia]).
    assert (HDqw : D qw = 53)
      by (rewrite (D_shift pw qw (53 - D pw)); [lia | lia | exact Hqw]).
    pose proof (D_bounds ms) as [Hmsl Hmsu].
    assert (HDs : 0 < D ms) by (unfold D; lia).
    pose proof (D_bounds (qw * ms)) as [Hml Hmu].
    pose proof (D_mul_upper qw ms) as Hup.
    assert (Hm : Zpos (qw * ms) = Zpos pw * Zpos ms * 2 ^ (53 - D pw))
      by (rewrite Pos2Z.inj_mul, Hqw; ring).
    assert (Hp53 : 0 < 2 ^ (53 - D pw)) by (apply Z.pow_pos_nonneg; lia).
    pose proof (finite_in_range sg ms es q Hq Hlo Hhi) as Hsg.
    destruct Hsg as [-> Hes].
    cbn [mul]. rewrite Hfw. cbn [SFmul xorb].
    assert (HE : 1 <= D (qw * ms) + (D pw - 53 + es) <= 1023
                 /\ D pw - 53 + es <= 971).
    { destruct Hes as [(p & -> & Hp1 & Hp2)|[Hes0 Hes1]].
      - assert (Hpp : 0 < 2 ^ Zpos p) by (apply Z.pow_pos_nonneg; lia).
        assert (H1 : 2 ^ (53 - D pw + Zpos p) < 2 ^ D (qw * ms)).
        { rewrite Z.pow_add_r by lia. nia. }
        apply Z.pow_lt_mono_r_iff in H1; [| lia | unfold D; lia].
        assert (H2 : 2 ^ (D ms - 1) < 2 ^ (Zpos p + 3)).
        { rewrite Z.pow_add_r by lia. change (2 ^ 3) with 8. lia. }
        apply Z.pow_lt_mono_r_iff in H2; lia.
      - assert (Hes2 : es < 3).
        { destruct (Z_lt_le_dec es 3); trivial.
          assert (2 ^ 3 <= 2 ^ es) by (apply Z.pow_le_mono_r; lia).
          change (2 ^ 3) with 8 in *. nia. }
        assert (Hpe : 0 < 2 ^ es) by (apply Z.pow_pos_nonneg; lia).
        assert (H2 : 2 ^ (D ms - 1) < 2 ^ 3) by (change (2 ^ 3) with 8; nia).
        apply Z.pow_lt_mono_r_iff in H2; [| lia | lia].
        split; [| lia]. split; [| lia].
        destruct (Z_le_gt_dec 0 (D pw - 53 + es)); [unfold D in *; lia|].
        assert (H1 : 2 ^ (53 - D pw - es) < 2 ^ D (qw * ms)).
        { assert (2 ^ (53 - D pw - es) <= 2 ^ (53 - D pw))
            by (apply Z.pow_le_mono_r; lia). nia. }
        apply Z.pow_lt_mono_r_iff in H1; [lia | lia | unfold D; lia]. }
    destruct HE as [HE He].
    destruct (round_normal (qw * ms) (D pw - 53 + es)) as (m' & e' & Hr & Hge);
      [lia | lia |].
    rewrite Hr.
    destruct (int_ge_1 m' e') as (n & Hn & Hn1); [lia|].
    exists (Float (S754_finite false m' e')), n. auto.
Qed.

(** ** Scale mode on the values the form can send *)

Lemma float_of_int_positive k fk :
  0 < k < 2 ^ 53 -> float_of_int k = Return fk ->
  exists m e, fk = S754_finite false m e.
Proof.
  intros Hk Hfk. destruct k as [|pk|pk]; try lia.
  destruct (float_of_int_exact pk) as (qk & _ & Hfk'); [apply D_le_53; lia|].
  rewrite Hfk' in Hfk. injection Hfk as <-. eauto.
Qed.

(** X7.  A whole-number scale factor held in a float (1.0, 2.0, ...)
    multiplies both dimensions exactly, as long as the products stay
    below 2^53: the rounding of the product and the truncation lose
    nothing. *)
Theorem whole_number_scale_is_exact w h k fk tw th :
  0 <= w -> 0 <= h -> 0 < k < 2 ^ 53 ->
  w * k < 2 ^ 53 -> h * k < 2 ^ 53 ->
  float_of_int k = Return fk ->
  new_size w h scale_method (Some (Float fk)) tw th
  = Return (Continue (w * k, h * k)).
Proof.
  intros Hw Hh Hk Hwk Hhk Hfk.
  destruct (scaled_whole w k fk Hw Hk Hwk Hfk) as (pw & Hpw & Hnw).
  destruct (scaled_whole h k fk Hh Hk Hhk Hfk) as (ph & Hph & Hnh).
  apply (new_size_scale w h (Float fk) tw th pw ph); trivial.
  destruct (float_of_int_positive k fk Hk Hfk) as (m & e & ->). reflexivity.
Qed.

(** 640x480 at 2.0 is 1280x960. *)
Lemma whole_number_scale_is_exact_witness :
  new_size 640 480 scale_method (Some (literal 2 1)) None None
  = Return (Continue (1280, 960)).
Proof.
  apply (whole_number_scale_is_exact 640 480 2
           (S754_finite false 4503599627370496 (-51)) None None);
    try lia; reflexivity.
Defined.

(** X11.  The form as first shown, once an image is uploaded, asks for
    Scale mode with factor 1.0: on any image that loads and normalises the
    new size is the size of the image, and the call succeeds with that
    size once the rendering steps return. *)
Theorem default_form_keeps_size lib input img0 img :
  load lib input = Return img0 ->
  normalize lib img0 = Return img ->
  0 <= fst (PIL.size img) < 2 ^ 53 ->
  0 <= snd (PIL.size img) < 2 ^ 53 ->
  new_size (fst (PIL.size img)) (snd (PIL.size img))
    (form_resize_method initial_form) (Some (form_scale_factor initial_form))
    (form_target_width initial_form) (form_target_height initial_form)
  = Return (Continue (fst (PIL.size img), snd (PIL.size img)))
  /\ forall a,
       render lib img (fst (PIL.size img)) (snd (PIL.size img)) = Return a ->
       submit lib (upload initial_form input)
       = Return (Some a, info_message (fst (PIL.size img)) (snd (PIL.size img))
                           (fst (PIL.size img)) (snd (PIL.size img))).
Proof.
  intros Hl Hn Hw Hh.
  assert (Hs : new_size (fst (PIL.size img)) (snd (PIL.size img))
                 (form_resize_method initial_form)
                 (Some (form_scale_factor initial_form))
                 (form_target_width initial_form)
                 (form_target_height initial_form)
               = Return (Continue (fst (PIL.size img), snd (PIL.size img)))).
  { destruct (scaled_whole (fst (PIL.size img)) 1
                (S754_finite false 4503599627370496 (-52)))
      as (pw & Hpw & Hnw); try lia; [reflexivity|].
    destruct (scaled_whole (snd (PIL.size img)) 1
                (S754_finite false 4503599627370496 (-52)))
      as (ph & Hph & Hnh); try lia; [reflexivity|].
    rewrite Z.mul_1_r in Hnw, Hnh.
    now apply (new_size_scale _ _ _ None None pw ph). }
  split; [exact Hs|].
  intros a Ha. unfold submit, upload.
  cbn [form_input_image form_resize_method form_scale_factor
       form_target_width form_target_height form_quality].
  now apply (resize_image_intro lib input img0 img).
Qed.

(** A 4x2 image through the reference library with the defaults. *)
Lemma default_form_keeps_size_witness :
  let img := solid "RGBA" 4 2 [10; 20; 30; 255] in
  exists a,
    submit Ref.lib (upload initial_form (PILImage img))
    = Return (Some a, info_message 4 2 4 2).
Proof.
  intros img.
  destruct (render Ref.lib img 4 2) as [a|e] eqn:Ha;
    [| vm_compute in Ha; discriminate Ha].
  exists a.
  destruct (default_form_keeps_size Ref.lib (PILImage img) img img
              eq_refl eq_refl) as [_ H];
    [cbn; lia | cbn; lia |].
  exact (H a Ha).
Defined.

(** X5.  A scale factor that is NaN or plus infinity is not refused by
    the check of line 33: on an image of positive width that loads and
    normalises, the truncation of line 35 raises, and the call returns no
    image and the error message with Python's text for the failed
    conversion. *)
Theorem scale_nan_or_infinite lib input img0 img tw th q :
  load lib input = Return img0 ->
  normalize lib img0 = Return img ->
  0 < fst (PIL.size img) < 2 ^ 53 ->
  resize_image lib (Some input) scale_method (Some (Float S754_nan)) tw th q
  = Return (None, (msg_error ++ "cannot convert float NaN to integer")%string)
  /\ resize_image lib (Some input) scale_method (Some inf) tw th q
     = Return (None,
               (msg_error ++ "cannot convert float infinity to integer")%string).
Proof.
  intros Hl Hn Hw.
  rewrite !(resize_image_cases _ _ _ _ _ _ _ _ _ Hl Hn).
  destruct (fst (PIL.size img)) as [|pw|pw]; try lia.
  destruct (float_of_int_exact pw) as (qw & _ & Hfw); [apply D_le_53; lia|].
  unfold new_size, scale_method, inf. rewrite String.eqb_refl.
  cbn [le0 SFleb SFcompare mul]. rewrite Hfw. split; reflexivity.
Qed.

Lemma scale_nan_or_infinite_witness :
  let img := solid "RGBA" 3 3 [10; 20; 30; 255] in
  resize_image Ref.lib (Some (PILImage img)) scale_method
    (Some (Float S754_nan)) None None (Int 90)
  = Return (None, (msg_error ++ "cannot convert float NaN to integer")%string).
Proof.
  intros img.
  apply (scale_nan_or_infinite Ref.lib (PILImage img) img img None None
           (Int 90) eq_refl eq_refl).
  cbn. lia.
Defined.

(** X8.  For every scale factor whose value lies between the slider's
    minimum and maximum (lines 79-80) and every width and height of at
    least ten pixels, Scale mode computes a size: nothing raises and both
    new dimensions are at least 1. *)
Theorem slider_range_is_safe w h s q qmin qmax tw th :
  10 <= w < 2 ^ 53 -> 10 <= h < 2 ^ 53 ->
  to_Q s = Some q ->
  to_Q (gr.minimum scale_factor_slider) = Some qmin ->
  to_Q (gr.maximum scale_factor_slider) = Some qmax ->
  (qmin <= q)%Q -> (q <= qmax)%Q ->
  exists nw nh,
    new_size w h scale_method (Some s) tw th = Return (Continue (nw, nh))
    /\ 1 <= nw /\ 1 <= nh.
Proof.
  intros Hw Hh Hq Hmin Hmax Hlo Hhi.
  vm_compute in Hmin. injection Hmin as <-.
  vm_compute in Hmax. injection Hmax as <-.
  assert (Hlo' : (1 # 10 <= q)%Q).
  { eapply Qle_trans; [| exact Hlo]. unfold Qle; cbn. lia. }
  assert (Hhi' : (q <= 5)%Q).
  { eapply Qle_trans; [exact Hhi|]. unfold Qle; cbn. lia. }
  destruct (scaled_in_range w s q Hw Hq Hlo' Hhi') as (pw & nw & Hpw & Hnw & Hnw1).
  destruct (scaled_in_range h s q Hh Hq Hlo' Hhi') as (ph & nh & Hph & Hnh & Hnh1).
  exists nw, nh. split; [| auto].
  apply (new_size_scale w h s tw th pw ph); trivial.
  destruct (le0 s) eqn:Hle; [| reflexivity].
  apply le0_not_positive in Hle. destruct Hle as [->|(q' & Hq' & Hneg)].
  - discriminate Hq.
  - rewrite Hq in Hq'. injection Hq' as <-.
    assert (Hc : (1 # 10 <= 0)%Q) by (eapply Qle_trans; eauto).
    unfold Qle in Hc; cbn in Hc. lia.
Qed.

(** A 10x10 image at the minimum of the slider comes out 1x1. *)
Lemma slider_range_is_safe_witness :
  exists nw nh,
    new_size 10 10 scale_method (Some (literal 1 10)) None None
    = Return (Continue (nw, nh))
    /\ 1 <= nw /\ 1 <= nh.
Proof.
  apply (slider_range_is_safe 10 10 (literal 1 10)
           (7205759403792794 # 72057594037927936)
           (7205759403792794 # 72057594037927936)
           (5629499534213120 # 1125899906842624) None None);
    try lia; try reflexivity.
  - apply Qle_refl.
  - unfold Qle; cbn. lia.
Defined.

(** ** What the form shows and what the engine reads *)

(** X1.  Whatever the selected mode, exactly one of the two input groups
    is shown, and the inputs of the hidden group have no influence on the
    result: with the scale group hidden the scale factor is not read, with
    the size group hidden the target width and height are not read. *)
Theorem hidden_inputs_are_ignored lib input_image choice sf tw th q :
  gr.visible (fst (update_visibility choice))
  = negb (gr.visible (snd (update_visibility choice)))
  /\ (gr.visible (fst (update_visibility choice)) = false ->
      forall sf',
        resize_image lib input_image choice sf' tw th q
        = resize_image lib input_image choice sf tw th q)
  /\ (gr.visible (snd (update_visibility choice)) = false ->
      forall tw' th',
        resize_image lib input_image choice sf tw' th' q
        = resize_image lib input_image choice sf tw th q).
Proof.
  unfold update_visibility.
  destruct (String.eqb choice "比例調整") eqn:Hc; cbn [fst snd gr.visible negb].
  - split; [reflexivity|]. split; [discriminate|].
    intros _ tw' th'. apply resize_image_ext. intros w h.
    unfold new_size. now rewrite Hc.
  - split; [reflexivity|]. split; [| discriminate].
    intros _ sf'. apply resize_image_ext. intros w h.
    unfold new_size. now rewrite Hc.
Qed.

(** ** The size handed to the resampler *)

Lemma scaled_nonneg w s p n :
  0 <= w -> le0 s = false ->
  mul (Int w) s = Return p -> int p = Return n -> 0 <= n.
Proof.
  intros Hw Hs Hp Hn.
  destruct (positive s) eqn:Hpos.
  - exact (int_nonneg p n (mul_nonneg w s p Hw Hpos Hp) Hn).
  - destruct s as [z|[sg|sg| |sg m e]]; cbn [le0 positive] in Hs, Hpos.
    + apply Z.leb_gt in Hs. apply Z.ltb_ge in Hpos. lia.
    + discriminate Hs.
    + destruct sg; discriminate.
    + cbn [mul] in Hp. destruct (float_of_int w) as [f|e]; [| discriminate Hp].
      injection Hp as <-. destruct f; discriminate Hn.
    + destruct sg; discriminate.
Qed.

(** X9.  Whatever the request, on an image whose width and height are
    not negative the size that reaches the resampler is never negative,
    and outside Scale mode it is at least 1x1. *)
Theorem computed_size_is_never_negative w h m sf tw th nw nh :
  0 <= w -> 0 <= h ->
  new_size w h m sf tw th = Return (Continue (nw, nh)) ->
  0 <= nw /\ 0 <= nh /\ (m <> scale_method -> 1 <= nw /\ 1 <= nh).
Proof.
  intros Hw Hh. unfold new_size, scale_method.
  destruct (String.eqb_spec m "比例調整") as [->|Hm].
  - destruct sf as [s|]; [| discriminate].
    destruct (le0 s) eqn:Hs; [discriminate|].
    intros H. step H. step H. step H. step H. inv H.
    repeat split; try congruence.
    + match goal with
      | Hm : mul (Int w) s = Return ?p, Hi : int ?p = Return ?n |- 0 <= ?n =>
          exact (scaled_nonneg w s p n Hw Hs Hm Hi)
      end.
    + match goal with
      | Hm : mul (Int h) s = Return ?p, Hi : int ?p = Return ?n |- 0 <= ?n =>
          exact (scaled_nonneg h s p n Hh Hs Hm Hi)
      end.
  - destruct tw as [x|], th as [y|]; try discriminate.
    destruct (Z.eqb_spec x 0), (Z.eqb_spec y 0), (Z.leb_spec x 0),
      (Z.leb_spec y 0); cbn [orb]; try discriminate.
    intros [= <- <-]. lia.
Qed.

(** Targets 5 and 4 in Explicit mode. *)
Lemma computed_size_is_never_negative_witness :
  0 <= 5 /\ 0 <= 4 /\ (custom_method <> scale_method -> 1 <= 5 /\ 1 <= 4).
Proof.
  apply (computed_size_is_never_negative 3 3 custom_method None
           (Some 5) (Some 4) 5 4); try lia.
  reflexivity.
Defined.

(** ** Validation comes after loading *)

(** X12.  The two messages about the parameters are only ever returned
    for an input that loaded and normalised: when the image cannot be
    loaded or converted, the caller is told so, whatever the parameters. *)
Theorem validation_follows_loading lib input m sf tw th q :
  resize_image lib (Some input) m sf tw th q = Return (None, msg_scale)
  \/ resize_image lib (Some input) m sf tw th q = Return (None, msg_size) ->
  exists img0 img,
    load lib input = Return img0 /\ normalize lib img0 = Return img.
Proof.
  intros H.
  destruct (load lib input) as [img0|e] eqn:Hl.
  - destruct (normalize lib img0) as [img|e] eqn:Hn; [eauto|].
    exfalso.
    assert (Hr : resize_image lib (Some input) m sf tw th q
                 = Return (None, (msg_error ++ exc_str e)%string)).
    { unfold resize_image, try_body. rewrite Hl; cbn [Py.bind].
      now rewrite Hn. }
    rewrite Hr in H.
    destruct (msg_error_is_not_a_validation_message (exc_str e)) as (H1 & H2 & _).
    destruct H as [H|H]; inv H; auto.
  - exfalso.
    assert (Hr : resize_image lib (Some input) m sf tw th q
                 = Return (None, (msg_error ++ exc_str e)%string)).
    { unfold resize_image, try_body. now rewrite Hl. }
    rewrite Hr in H.
    destruct (msg_error_is_not_a_validation_message (exc_str e)) as (H1 & H2 & _).
    destruct H as [H|H]; inv H; auto.
Qed.

Lemma validation_follows_loading_witness :
  let img := solid "RGBA" 3 3 [10; 20; 30; 255] in
  exists img0 img',
    load Ref.lib (PILImage img) = Return img0
    /\ normalize Ref.lib img0 = Return img'.
Proof.
  intros img.
  apply (validation_follows_loading Ref.lib (PILImage img) custom_method None
           (Some 0) (Some 100) (Int 90)).
  right. reflexivity.
Defined.

(** ** Reading the message back *)

Lemma append_inj_l a x y : (a ++ x)%string = (a ++ y)%string -> x = y.
Proof. induction a as [|c a IH]; simpl; [auto | intros [= H]; auto]. Qed.

Lemma occurs_append c a b :
  occurs c (a ++ b) = occurs c a || occurs c b.
Proof.
  induction a as [|x a IH]; simpl; [reflexivity|].
  now rewrite IH, orb_assoc.
Qed.

(** Two strings free of [c], each followed by [c], split a string at the
    same place. *)
Lemma split_at_first c s1 s2 r1 r2 :
  occurs c s1 = false -> occurs c s2 = false ->
  (s1 ++ String c r1)%string = (s2 ++ String c r2)%string ->
  s1 = s2 /\ r1 = r2.
Proof.
  revert s2; induction s1 as [|a s1 IH]; intros [|b s2]; simpl; intros H1 H2 H.
  - injection H as <-. auto.
  - injection H as -> _. rewrite Ascii.eqb_refl in H2. discriminate.
  - injection H as -> _. rewrite Ascii.eqb_refl in H1. discriminate.
  - injection H as -> H. apply orb_false_iff in H1, H2.
    destruct (IH s2 (proj2 H1) (proj2 H2) H) as [-> ->]. auto.
Qed.

Lemma uint_digits_only c d :
  occurs c (NilEmpty.string_of_uint d) = true -> occurs c "0123456789" = true.
Proof.
  induction d as [|d IH|d IH|d IH|d IH|d IH|d IH|d IH|d IH|d IH|d IH];
    cbn [NilEmpty.string_of_uint occurs]; try discriminate;
    intros H; apply orb_true_iff in H; destruct H as [H|H];
    try (apply IH in H; exact H);
    apply Ascii.eqb_eq in H; subst c; reflexivity.
Qed.

(** [str(z)] is made of digits and the minus sign. *)
Lemma str_characters c z :
  occurs c (str z) = true -> occurs c "-0123456789" = true.
Proof.
  unfold str, NilZero.string_of_int, NilZero.string_of_uint.
  assert (Hd : forall d,
             occurs c match d with
                      | Decimal.Nil => "0"
                      | _ => NilEmpty.string_of_uint d
                      end = true ->
             occurs c "0123456789" = true).
  { intros d H. destruct d; try (apply uint_digits_only in H; exact H).
    cbn [occurs] in H. apply orb_true_iff in H. destruct H as [H|H];
      [| discriminate]. apply Ascii.eqb_eq in H. subst c. reflexivity. }
  destruct (Z.to_int z) as [d|d]; cbn [occurs]; intros H.
  - apply Hd in H. cbn [occurs] in *. rewrite H. apply orb_true_r.
  - apply orb_true_iff in H. destruct H as [H|H]; [now rewrite H|].
    apply Hd in H. cbn [occurs] in *. rewrite H. apply orb_true_r.
Qed.

Lemma str_has_no c z : occurs c "-0123456789" = false -> occurs c (str z) = false.
Proof.
  intros H. destruct (occurs c (str z)) eqn:E; [| reflexivity].
  apply str_characters in E. congruence.
Qed.

Lemma str_inj a b : str a = str b -> a = b.
Proof.
  unfold str. intros H.
  assert (Hn : forall z, Z.to_int z <> Decimal.Pos Decimal.Nil
                         /\ Z.to_int z <> Decimal.Neg Decimal.Nil).
  { intros z. split; intros E; pose proof (f_equal Z.of_int E) as E';
      rewrite DecimalZ.of_to in E'; cbn in E'; subst z; discriminate E. }
  apply (f_equal NilZero.int_of_string) in H.
  rewrite !NilZero.isi in H by apply Hn.
  injection H as H. apply (f_equal Z.of_int) in H.
  now rewrite !DecimalZ.of_to in H.
Qed.

(** X10.  The info message tells the four dimensions apart: two
    messages are equal exactly when the original and the new widths and
    heights are. *)
Theorem info_message_inj w h nw nh w' h' nw' nh' :
  info_message w h nw nh = info_message w' h' nw' nh'
  <-> (w, h, nw, nh) = (w', h', nw', nh').
Proof.
  split; [| now intros [= -> -> -> ->]].
  unfold info_message, LF. intros H.
  apply append_inj_l in H.
  apply (split_at_first "x") in H; try (apply str_has_no; reflexivity).
  destruct H as [Hw H]. apply str_inj in Hw.
  apply (split_at_first "010") in H; try (apply str_has_no; reflexivity).
  destruct H as [Hh H]. apply str_inj in Hh.
  apply append_inj_l in H.
  apply (split_at_first "x") in H; try (apply str_has_no; reflexivity).
  destruct H as [Hnw H]. apply str_inj in Hnw.
  apply (split_at_first "010") in H; try (apply str_has_no; reflexivity).
  destruct H as [Hnh _]. apply str_inj in Hnh.
  now subst.
Qed.

(** ** The buffer between [save] and [open] *)

(** X13.  Lines 44-53 amount to resampling, encoding, decoding the very
    bytes that were encoded, and converting to an array: the buffer, being
    fresh and rewound before it is read, adds and loses nothing. *)
Theorem buffer_is_transparent lib img new_width new_height :
  render lib img new_width new_height
  = (resized_img <- Image_resize lib img (new_width, new_height) PIL.LANCZOS ;;
     b <- encode lib resized_img "PNG" ;;
     output_img <- decode lib b ;;
     np_array lib output_img).
Proof.
  unfold render, Image_save, Image_open.
  destruct (Image_resize lib img (new_width, new_height) PIL.LANCZOS) as [r|e];
    cbn [Py.bind]; [| reflexivity].
  destruct (encode lib r "PNG") as [b|e]; cbn [Py.bind]; [| reflexivity].
  now rewrite BytesIO_write_seek_read.
Qed.

(** ** A size the resampler refuses *)

(** X14.  Under the library contract, a computed size with a dimension
    below 1 that is not the size of the image itself never yields an image:
    the call ends in the error message of the [except] clause, followed by
    the text of the exception. *)
Theorem refused_size_is_reported lib input img0 img m sf tw th q nw nh :
  Contract lib ->
  load lib input = Return img0 ->
  normalize lib img0 = Return img ->
  new_size (fst (PIL.size img)) (snd (PIL.size img)) m sf tw th
    = Return (Continue (nw, nh)) ->
  nw < 1 \/ nh < 1 ->
  (nw, nh) <> PIL.size img ->
  exists e,
    raised lib input m sf tw th e
    /\ resize_image lib (Some input) m sf tw th q
       = Return (None, (msg_error ++ exc_str e)%string).
Proof.
  intros C Hl Hn Hs Hz Hne.
  destruct (try_body lib input m sf tw th) as [r|e] eqn:Hb.
  - exfalso. unfold try_body in Hb.
    rewrite Hl in Hb; cbn [Py.bind] in Hb. rewrite Hn in Hb; cbn [Py.bind] in Hb.
    destruct (PIL.size img) as [w h] eqn:Hsz; cbn [fst snd] in Hs.
    rewrite Hs in Hb; cbn [Py.bind] in Hb. step Hb.
    destruct (render_shape lib img nw nh a C E) as (_ & [He|[Hw Hh]]);
      [rewrite Hsz in He; contradiction | lia].
  - exists e. split; [now apply try_body_raised|].
    unfold resize_image. now rewrite Hb.
Qed.

(** A 5x5 image at 0.1 through the reference library. *)
Lemma refused_size_is_reported_witness :
  let img := solid "RGBA" 5 5 [10; 20; 30; 255] in
  exists e,
    raised Ref.lib (PILImage img) scale_method (Some (literal 1 10)) None None e
    /\ resize_image Ref.lib (Some (PILImage img)) scale_method
         (Some (literal 1 10)) None None (Int 90)
       = Return (None, (msg_error ++ exc_str e)%string).
Proof.
  intros img.
  apply (refused_size_is_reported Ref.lib (PILImage img) img img
           scale_method (Some (literal 1 10)) None None (Int 90) 0 0
           Ref_contract eq_refl eq_refl).
  - vm_compute. reflexivity.
  - lia.
  - discriminate.
Defined.
